(** * StitchIt: a shallow embedding of the video-processing service

    The TypeScript service downloads clips, a song and an ASS subtitle file,
    renders them with ffmpeg (cross-fades between clips, subtitles burnt in,
    song audio mapped, output trimmed to the song) and materialises the result
    on Vercel Blob and Mux.  This file models the parts of that pipeline that
    the specification talks about:

    - [FFmpegService.calculateTransitionOffsets], [buildFilterComplex] and the
      command built by [FFmpegService.processVideo] (services/ffmpegService);
    - the two bounded polling loops of [MuxService.uploadVideo]
      (services/muxService);
    - the error and cleanup policy of [VideoProcessor.processVideo]
      (services/videoProcessor, the Mux-enabled version);
    - [FileManager.generateFileName] / [generateBlobPath];
    - the Joi schema of a video clip (validation/schemas).

    JavaScript numbers are IEEE 754 binary64 values.  Where the code only
    stores, compares or prints them (durations, bitrates, the song length)
    they are modelled by their exact value, a rational ([Q]); the one place
    where the code computes with them and rounding matters,
    [calculateTransitionOffsets], is modelled on Rocq's primitive binary64
    floats ([float], each [+] and [-] rounded to nearest, ties to even, as
    in JavaScript), and so are the offsets it returns.  Counts and indices
    are [nat]; strings are stdpp [string]. *)

From Stdlib Require Import PrimFloat SpecFloat FloatOps FloatAxioms.
From Stdlib Require Import QArith Qminmax Lia Lqa.
From stdpp Require Import base list strings pretty.

Set Warnings "-inexact-float".
Open Scope Q_scope.

(* ------------------------------------------------------------------ *)
(** ** FFmpegService.calculateTransitionOffsets *)

Module Offsets.

(** One iteration of
    [for (let i = 0; i < clipDurations.length - 1; i++) {
       cumulativeDuration += clipDurations[i]! - transitionDuration;
       offsets.push(cumulativeDuration); }]
    with [k] iterations still to run. *)
Fixpoint offsets_loop (clipDurations : list float)
    (transitionDuration cumulativeDuration : float) (i k : nat) : list float :=
  match k with
  | O => []
  | S k' =>
      let cumulativeDuration' :=
        (cumulativeDuration + (nth i clipDurations 0 - transitionDuration))%float in
      cumulativeDuration'
        :: offsets_loop clipDurations transitionDuration cumulativeDuration' (S i) k'
  end.

Definition calculateTransitionOffsets (clipDurations : list float)
    (transitionDuration : float) : list float :=
  offsets_loop clipDurations transitionDuration 0%float 0 (length clipDurations - 1).

End Offsets.

(* ------------------------------------------------------------------ *)
(** ** FileManager.generateFileName / generateBlobPath *)

Module FileNames.

(** [`final_video_${processId}.${extension}`] *)
Definition generateFileName (songId processId extension : string) : string :=
  "final_video_" +:+ processId +:+ "." +:+ extension.

(** [`videos/${songId}/${fileName}`] *)
Definition generateBlobPath (songId fileName : string) : string :=
  "videos/" +:+ songId +:+ "/" +:+ fileName.

End FileNames.

(* ------------------------------------------------------------------ *)
(** ** Request, context and the ffmpeg filter graph (types/index, ffmpegService) *)

Module FFmpeg.

Inductive AspectRatio := AR_9_16 | AR_16_9.

(** [ASPECT_RATIO_CONFIGS]: ['9:16'] is 1080x1920, ['16:9'] is 1920x1080. *)
Definition ASPECT_RATIO_CONFIGS (ar : AspectRatio) : nat * nat :=
  match ar with
  | AR_9_16 => (1080, 1920)%nat
  | AR_16_9 => (1920, 1080)%nat
  end.

Inductive CompressionLevel := balanced | high | maximum.

Record VideoClip := { clip_url : string; clip_duration : Q }.

Record ProcessVideoRequest := {
  videoClips : list VideoClip;
  songId : string;
  outputAspectRatio : AspectRatio;
  transitionDuration : option Q;
  compressionLevel : option CompressionLevel;
  audioBitrate : option Q
}.

Record LocalFiles := {
  lf_videoClips : list string;
  assFile : string;
  songFile : string;
  outputFile : string
}.

Record Metadata := {
  songDuration : Q;
  totalClipDuration : Q;
  transitionOffsets : list float
}.

Record ProcessingContext := {
  ctx_request : ProcessVideoRequest;
  ctx_localFiles : LocalFiles;
  ctx_metadata : Metadata
}.

(** JavaScript [x || d] on an optional number: [undefined] and [0] are
    falsy. *)
Definition or_default (x : option Q) (d : Q) : Q :=
  match x with
  | Some q => if Qeq_bool q 0 then d else q
  | None => d
  end.

Definition vlabel (i : nat) : string := "v" +:+ pretty i.
Definition fade_label (i : nat) : string := "v" +:+ pretty i +:+ "_fade".

(** The text appended by each [filterComplex += ...] of
    [buildFilterComplex], one constructor per template:
    - [FScale i w h]: [`[${i}:v]scale=${width}:${height},setsar=1[v${i}];`]
    - [FLabel l]: [`[${l}]`] (no terminating [;])
    - [FXfade a b d o l]:
      [`[${a}][${b}]xfade=transition=fade:duration=${d}:offset=${o}[${l}];`],
      where [o] is [None] when [transitionOffsets[i-1]] is [undefined]
    - [FAss l f dir]: [`[${l}]ass=${f}:fontsdir=${dir}[vout]`] *)
Inductive FilterPiece :=
  | FScale (i width height : nat)
  | FLabel (l : string)
  | FXfade (a b : string) (duration : Q) (offset : option float) (out : string)
  | FAss (l : string) (assFile fontsDir : string).

(** The xfade loop
    [for (let i = 1; i < n; i++) { offset = transitionOffsets[i - 1];
       nextLabel = i === n - 1 ? 'video_out' : `v${i}_fade`; ...;
       currentLabel = nextLabel; }] with [k] iterations left. *)
Fixpoint xfade_loop (n : nat) (t : Q) (offsets : list float) (currentLabel : string)
    (i k : nat) : list FilterPiece :=
  match k with
  | O => []
  | S k' =>
      let nextLabel := if Nat.eqb i (n - 1) then "video_out" else fade_label i in
      FXfade currentLabel (vlabel i) t (nth_error offsets (i - 1)) nextLabel
        :: xfade_loop n t offsets nextLabel (S i) k'
  end.

(** [buildFilterComplex]; [fontsDir] is [path.join(process.cwd(), 'fonts')]. *)
Definition buildFilterComplex (fontsDir : string) (context : ProcessingContext)
    : list FilterPiece :=
  let request := ctx_request context in
  let localFiles := ctx_localFiles context in
  let metadata := ctx_metadata context in
  let '(width, height) := ASPECT_RATIO_CONFIGS (outputAspectRatio request) in
  let t := or_default (transitionDuration request) (1#2) in
  let n := length (lf_videoClips localFiles) in
  let scaled := map (fun i => FScale i width height) (seq 0 n) in
  let chain :=
    if Nat.eqb n 1 then [FLabel "v0"]
    else xfade_loop n t (transitionOffsets metadata) "v0" 1 (n - 1) in
  let subtitles :=
    if Nat.eqb n 1 then FAss "v0" (assFile localFiles) fontsDir
    else FAss "video_out" (assFile localFiles) fontsDir in
  scaled ++ chain ++ [subtitles].

(** How ffmpeg's filtergraph parser reads the concatenated text: link
    labels written in front of a filter are its input pads, so a bare
    [FLabel] (not followed by [;]) becomes an extra input of the next
    filter; every other piece ends its chain. *)
Inductive FilterKind :=
  | KScaleSetsar (width height : nat)
  | KXfade (duration : Q) (offset : option float)
  | KAss (assFile fontsDir : string).

Record FilterChain := {
  fc_inputs : list string;
  fc_filter : FilterKind;
  fc_outputs : list string
}.

Fixpoint filtergraph_chains (pending : list string) (ps : list FilterPiece)
    : list FilterChain :=
  match ps with
  | [] => []
  | FScale i w h :: rest =>
      {| fc_inputs := pending ++ [pretty i +:+ ":v"];
         fc_filter := KScaleSetsar w h; fc_outputs := [vlabel i] |}
        :: filtergraph_chains [] rest
  | FLabel l :: rest => filtergraph_chains (pending ++ [l]) rest
  | FXfade a b d o out :: rest =>
      {| fc_inputs := pending ++ [a; b];
         fc_filter := KXfade d o; fc_outputs := [out] |}
        :: filtergraph_chains [] rest
  | FAss l f dir :: rest =>
      {| fc_inputs := pending ++ [l];
         fc_filter := KAss f dir; fc_outputs := ["vout"] |}
        :: filtergraph_chains [] rest
  end.

Definition is_xfade (p : FilterPiece) : bool :=
  match p with FXfade _ _ _ _ _ => true | _ => false end.

(** Specification of the transition chain, following the spec's words: a
    strict left fold over the scaled streams [1 .. n-1]; the accumulator
    starts at scaled stream 0, step [i] combines it with scaled stream [i] at
    [offset[i-1]] and its output, named by [name i], is the next
    accumulator. *)
Fixpoint left_fold_spec (t : Q) (offsets : list float) (name : nat -> string)
    (acc : string) (streams : list nat) : list FilterChain :=
  match streams with
  | [] => []
  | i :: rest =>
      {| fc_inputs := [acc; vlabel i];
         fc_filter := KXfade t (nth_error offsets (i - 1));
         fc_outputs := [name i] |}
        :: left_fold_spec t offsets name (name i) rest
  end.

Definition scale_chains (width height n : nat) : list FilterChain :=
  map (fun i => {| fc_inputs := [pretty i +:+ ":v"];
                   fc_filter := KScaleSetsar width height;
                   fc_outputs := [vlabel i] |}) (seq 0 n).

(** The arguments of [command.outputOptions([...])]: a string literal, or
    [`${x}${suffix}`] / [x.toString()] for a JavaScript number [x]. *)
Inductive OptArg := Lit (s : string) | NumStr (x : Q) (suffix : string).

(** A fluent-ffmpeg command as built by [processVideo]. *)
Record FfmpegCommand := {
  cmd_inputs : list string;
  cmd_complexFilter : list FilterPiece;
  cmd_outputOptions : list OptArg;
  cmd_output : option string
}.

Definition ffmpeg_new : FfmpegCommand :=
  {| cmd_inputs := []; cmd_complexFilter := []; cmd_outputOptions := [];
     cmd_output := None |}.

Definition cmd_input (c : FfmpegCommand) (path : string) : FfmpegCommand :=
  {| cmd_inputs := cmd_inputs c ++ [path]; cmd_complexFilter := cmd_complexFilter c;
     cmd_outputOptions := cmd_outputOptions c; cmd_output := cmd_output c |}.

Definition cmd_setComplexFilter (c : FfmpegCommand) (f : list FilterPiece) : FfmpegCommand :=
  {| cmd_inputs := cmd_inputs c; cmd_complexFilter := f;
     cmd_outputOptions := cmd_outputOptions c; cmd_output := cmd_output c |}.

Definition cmd_addOutputOptions (c : FfmpegCommand) (o : list OptArg) : FfmpegCommand :=
  {| cmd_inputs := cmd_inputs c; cmd_complexFilter := cmd_complexFilter c;
     cmd_outputOptions := cmd_outputOptions c ++ o; cmd_output := cmd_output c |}.

Definition cmd_setOutput (c : FfmpegCommand) (path : string) : FfmpegCommand :=
  {| cmd_inputs := cmd_inputs c; cmd_complexFilter := cmd_complexFilter c;
     cmd_outputOptions := cmd_outputOptions c; cmd_output := Some path |}.

(** [compressionSettings[compressionLevel]] as (crf, preset). *)
Definition compressionSettings (l : CompressionLevel) : string * string :=
  match l with
  | balanced => ("25", "medium")
  | high => ("28", "slower")
  | maximum => ("32", "veryslow")
  end.

(** The command built by [FFmpegService.processVideo] before [run()]. *)
Definition processVideo_command (fontsDir : string) (context : ProcessingContext)
    : FfmpegCommand :=
  let request := ctx_request context in
  let localFiles := ctx_localFiles context in
  let metadata := ctx_metadata context in
  let filterComplex := buildFilterComplex fontsDir context in
  let level := default high (compressionLevel request) in
  let bitrate := or_default (audioBitrate request) 96 in
  let '(crf, preset) := compressionSettings level in
  let command := ffmpeg_new in
  let command := foldl cmd_input command (lf_videoClips localFiles) in
  let command := cmd_input command (songFile localFiles) in
  let command := cmd_input command (assFile localFiles) in
  let command := cmd_setComplexFilter command filterComplex in
  let command := cmd_addOutputOptions command
    [ Lit "-map"; Lit "[vout]";
      Lit "-map"; Lit (pretty (length (lf_videoClips localFiles)) +:+ ":a");
      Lit "-c:v"; Lit "libx264";
      Lit "-preset"; Lit preset;
      Lit "-crf"; Lit crf;
      Lit "-profile:v"; Lit "high";
      Lit "-level"; Lit "4.1";
      Lit "-pix_fmt"; Lit "yuv420p";
      Lit "-x264-params"; Lit "me=umh:subme=8:ref=3:bframes=3:b-adapt=2:direct=auto:weightb=1:analyse=all:8x8dct=1:trellis=2:fast-pskip=0:mixed-refs=1";
      Lit "-c:a"; Lit "aac";
      Lit "-b:a"; NumStr bitrate "k";
      Lit "-ac"; Lit "2";
      Lit "-ar"; Lit "44100";
      Lit "-movflags"; Lit "+faststart";
      Lit "-t"; NumStr (songDuration metadata) "" ] in
  cmd_setOutput command (outputFile localFiles).

Definition is_flag (flag : string) (a : OptArg) : bool :=
  match a with Lit s => bool_decide (s = flag) | NumStr _ _ => false end.

(** The values ffmpeg reads for option [flag]: the options are
    flag/value pairs. *)
Fixpoint option_values (flag : string) (opts : list OptArg) : list OptArg :=
  match opts with
  | f :: v :: rest =>
      (if is_flag flag f then [v] else []) ++ option_values flag rest
  | _ => []
  end.

(** ffmpeg's output option [-t duration] (documented behaviour of the
    external tool): the written output stops after [duration] seconds; with
    several [-t] the last one wins.  [timeline] is the length of the
    filtergraph's output. *)
Definition rendered_duration (c : FfmpegCommand) (timeline : Q) : Q :=
  match last (option_values "-t" (cmd_outputOptions c)) with
  | Some (NumStr d "") => Qmin timeline d
  | _ => timeline
  end.

End FFmpeg.

(* ------------------------------------------------------------------ *)
(** ** Error taxonomy (types/index) *)

Module Types.

Inductive ProcessingErrorCode :=
  | VALIDATION_ERROR | DOWNLOAD_FAILED | METADATA_EXTRACTION_ERROR
  | FFMPEG_PROCESSING_ERROR | UPLOAD_FAILED | CLEANUP_ERROR.

Inductive ProcessingStage :=
  | VALIDATION | ASSET_DOWNLOAD | METADATA_EXTRACTION | FFMPEG_CONSTRUCTION
  | VIDEO_PROCESSING | OUTPUT_UPLOAD | CLEANUP.

(** [new ProcessingError(code, stage, message, details)]; messages and
    details are not modelled. *)
Record ProcessingError := { pe_code : ProcessingErrorCode; pe_stage : ProcessingStage }.

Definition is_output_upload (st : ProcessingStage) : bool :=
  match st with OUTPUT_UPLOAD => true | _ => false end.

End Types.

(* ------------------------------------------------------------------ *)
(** ** MuxService.uploadVideo: the two polling loops after the PUT *)

Module Mux.
Import Types.

Inductive AssetStatus := preparing | ready | errored.

(** A Mux asset as returned by [mux.video.assets.retrieve]; [playback_ids]
    lists the [id] fields of [asset.playback_ids]. *)
Record Asset := { status : AssetStatus; playback_ids : list string }.

(** What one call of [mux.video.assets.retrieve(assetId)] does. *)
Inductive AssetPoll := AssetGot (a : Asset) | AssetRetrieveFails.

(** What one call of [mux.video.uploads.retrieve(upload.id)] does: the
    returned [asset_id] ([None] for [undefined]) or an exception. *)
Inductive UploadPoll := UploadGot (asset_id : option string) | UploadRetrieveFails.

(** JavaScript truthiness of an optional string. *)
Definition truthy (s : option string) : bool :=
  match s with Some x => negb (bool_decide (x = "")) | None => false end.

Definition maxStatusRetries : nat := 10.
Definition maxRetries : nat := 30.

(** [while (statusRetries < maxStatusRetries && !assetId) { ... }]; the
    upload endpoint answers poll number [k] with [ingest k].  Returns the
    final [assetId] and [statusRetries], which is also the number of polls
    made (each iteration polls once and increments once).  [fuel] only
    bounds the recursion; [maxStatusRetries] is enough. *)
Fixpoint status_loop (fuel : nat) (ingest : nat -> UploadPoll)
    (statusRetries : nat) (assetId : option string) : option string * nat :=
  match fuel with
  | O => (assetId, statusRetries)
  | S f =>
      if Nat.ltb statusRetries maxStatusRetries && negb (truthy assetId) then
        match ingest statusRetries with
        | UploadGot a => status_loop f ingest (S statusRetries) a
        | UploadRetrieveFails => status_loop f ingest (S statusRetries) assetId
        end
      else (assetId, statusRetries)
  end.

(** The reasons the body of [uploadVideo] throws (the [Error] messages). *)
Inductive MuxError :=
  | NoAssetId           (* 'Mux upload did not return an asset ID ...' *)
  | AssetProcessingFailed  (* 'Mux asset processing failed: ...' *)
  | RetrieveError       (* an exception of assets.retrieve *)
  | NotReadyTimeout     (* 'Mux asset did not become ready within the timeout period' *)
  | NoPlaybackId.       (* 'Mux asset does not have a valid playback ID' *)

Inductive LoopExit := Broke | Threw (e : MuxError).

Definition ready_with_playback (a : Asset) : bool :=
  match status a with
  | ready => negb (Nat.eqb (length (playback_ids a)) 0)
  | _ => false
  end.

Definition is_errored (a : Asset) : bool :=
  match status a with errored => true | _ => false end.

(** [while (retries < maxRetries) { try { asset = await retrieve(assetId);
       if (ready && playback_ids.length > 0) break;
       else if (status === 'errored') throw ...;
       wait; retries++; } catch (error) {
       if (retries === maxRetries - 1) throw error; wait; retries++; } }]
    The asset endpoint answers poll number [k] with [remote k]; poll number
    [k] is made when [retries = k].  Returns how the loop was left, the
    variable [asset], and the number of polls made. *)
Fixpoint asset_loop (fuel : nat) (remote : nat -> AssetPoll) (retries : nat)
    (asset : option Asset) : LoopExit * option Asset * nat :=
  match fuel with
  | O => (Broke, asset, retries)
  | S f =>
      if Nat.ltb retries maxRetries then
        match remote retries with
        | AssetGot a =>
            if ready_with_playback a then (Broke, Some a, S retries)
            else if is_errored a then
              (* the throw is caught by the loop's own catch *)
              if Nat.eqb retries (maxRetries - 1)
              then (Threw AssetProcessingFailed, Some a, S retries)
              else asset_loop f remote (S retries) (Some a)
            else asset_loop f remote (S retries) (Some a)
        | AssetRetrieveFails =>
            if Nat.eqb retries (maxRetries - 1)
            then (Threw RetrieveError, asset, S retries)
            else asset_loop f remote (S retries) asset
        end
      else (Broke, asset, retries)
  end.

(** Outcome of [uploadVideo]: the result, or the [ProcessingError] of its
    outer catch together with the inner reason. *)
Inductive MuxOutcome :=
  | MuxOk (assetId playbackId : string)
  | MuxFail (pe : ProcessingError) (reason : MuxError).

Definition mux_fail (e : MuxError) : MuxOutcome :=
  MuxFail {| pe_code := UPLOAD_FAILED; pe_stage := OUTPUT_UPLOAD |} e.

Record MuxRun := { outcome : MuxOutcome; ingest_polls : nat; asset_polls : nat }.

(** [uploadVideo] from [let assetId = upload.asset_id] on (the PUT of the
    file succeeded); [upload_asset_id] is [upload.asset_id]. *)
Definition uploadVideo_polls (upload_asset_id : option string)
    (ingest : nat -> UploadPoll) (remote : nat -> AssetPoll) : MuxRun :=
  let '(assetId, ipolls) :=
    if negb (truthy upload_asset_id)
    then status_loop maxStatusRetries ingest 0 upload_asset_id
    else (upload_asset_id, 0%nat) in
  match assetId with
  | Some id =>
      if negb (truthy assetId)
      then {| outcome := mux_fail NoAssetId; ingest_polls := ipolls; asset_polls := 0 |}
      else
        let '(ex, asset, apolls) := asset_loop maxRetries remote 0 None in
        let res :=
          match ex with
          | Threw e => mux_fail e
          | Broke =>
              match asset with
              | Some a =>
                  if ready_with_playback a then
                    match playback_ids a with
                    | p :: _ => if bool_decide (p = "") then mux_fail NoPlaybackId
                                else MuxOk id p
                    | [] => mux_fail NotReadyTimeout
                    end
                  else mux_fail NotReadyTimeout
              | None => mux_fail NotReadyTimeout
              end
          end in
        {| outcome := res; ingest_polls := ipolls; asset_polls := apolls |}
  | None => {| outcome := mux_fail NoAssetId; ingest_polls := ipolls; asset_polls := 0 |}
  end.

End Mux.

(* ------------------------------------------------------------------ *)
(** ** VideoProcessor.processVideo: stages, errors and workspace cleanup *)

Module Pipeline.
Import Types.

(** The awaited calls of [processVideo] that can fail, in program order;
    the three uploads run under one [Promise.all]. *)
Inductive Step :=
  | SValidate | SVerifyFFmpeg | SCreateWorkspace | SDownload | SMetadata
  | STranscode | SThumbnail | SUploadBlob | SUploadThumbnail | SUploadMux.

(** The environment of one run: which calls fail, which rejection
    [Promise.all] reports first (an index into the failed uploads), and
    whether [fs.rm] of the workspace succeeds. *)
Record Env := { fails : Step -> bool; fork_winner : nat; rm_succeeds : bool }.

(** The local variable [context] (set or [undefined]) and the file system:
    does the workspace [tempDir] exist, does the rendered
    [final_video.mp4] inside it exist. *)
Record State := { context_set : bool; ws_exists : bool; output_exists : bool }.

Definition initial_state : State :=
  {| context_set := false; ws_exists := false; output_exists := false |}.

(** An error-and-state monad for the async code: a run either throws a
    [ProcessingError] or returns, and updates the state. *)
Definition PM (A : Type) : Type := State -> (ProcessingError + A) * State.

Global Instance PM_ret : MRet PM := fun A x s => (inr x, s).
Global Instance PM_bind : MBind PM := fun A B f m s =>
  match m s with
  | (inl e, s') => (inl e, s')
  | (inr x, s') => f x s'
  end.

Definition throw {A} (e : ProcessingError) : PM A := fun s => (inl e, s).
Definition get : PM State := fun s => (inr s, s).
Definition modify (f : State -> State) : PM unit := fun s => (inr tt, f s).
Definition try_catch {A} (m : PM A) (h : ProcessingError -> PM A) : PM A := fun s =>
  match m s with
  | (inl e, s') => h e s'
  | r => r
  end.

Definition perr (c : ProcessingErrorCode) (st : ProcessingStage) : ProcessingError :=
  {| pe_code := c; pe_stage := st |}.

Definition set_context (s : State) : State :=
  {| context_set := true; ws_exists := ws_exists s; output_exists := output_exists s |}.
Definition mkdir_workspace (s : State) : State :=
  {| context_set := context_set s; ws_exists := true; output_exists := output_exists s |}.
Definition write_output (s : State) : State :=
  {| context_set := context_set s; ws_exists := ws_exists s; output_exists := true |}.
Definition rm_workspace (s : State) : State :=
  {| context_set := context_set s; ws_exists := false; output_exists := false |}.

Section Run.
Variable env : Env.

(** [FileManager.cleanupDirectory]: [fs.rm(dirPath, {recursive, force})],
    a failure becomes a CLEANUP_ERROR. *)
Definition cleanupDirectory : PM unit :=
  if rm_succeeds env then modify rm_workspace else throw (perr CLEANUP_ERROR CLEANUP).

(** [cleanupDirectory(tempDir).catch(() => {})] *)
Definition cleanupDirectory_ignoring : PM unit :=
  try_catch cleanupDirectory (fun _ => mret tt).

Definition validateRequest : PM unit :=
  if fails env SValidate then throw (perr VALIDATION_ERROR VALIDATION) else mret tt.

Definition verifyFFmpegInstallation : PM unit :=
  if fails env SVerifyFFmpeg then throw (perr FFMPEG_PROCESSING_ERROR VALIDATION)
  else mret tt.

(** [context = await this.createProcessingContext(request)]: the [mkdir] of
    [createTempDirectory], then the assignment of [context]. *)
Definition createProcessingContext : PM unit :=
  if fails env SCreateWorkspace then throw (perr VALIDATION_ERROR VALIDATION)
  else modify mkdir_workspace ;; modify set_context.

(** [downloadAssets] removes the workspace itself before rethrowing. *)
Definition downloadAssets : PM unit :=
  if fails env SDownload
  then cleanupDirectory_ignoring ;; throw (perr DOWNLOAD_FAILED ASSET_DOWNLOAD)
  else mret tt.

Definition extractMetadata : PM unit :=
  if fails env SMetadata then throw (perr METADATA_EXTRACTION_ERROR METADATA_EXTRACTION)
  else mret tt.

Definition ffmpeg_processVideo : PM unit :=
  if fails env STranscode then throw (perr FFMPEG_PROCESSING_ERROR VIDEO_PROCESSING)
  else modify write_output.

Definition generateThumbnail : PM unit :=
  if fails env SThumbnail then throw (perr FFMPEG_PROCESSING_ERROR VIDEO_PROCESSING)
  else mret tt.

(** [BlobService.uploadVideo] wraps every failure. *)
Definition uploadOutput_error : ProcessingError := perr UPLOAD_FAILED OUTPUT_UPLOAD.

(** Modelled from the spec: [FileManager.generateThumbnailBlobPath] and
    [BlobService.uploadThumbnail], called by [uploadThumbnail], are not in
    the sources.  The spec counts a rejected upload of either object store
    as [UploadFailed] of the upload stage. *)
Definition uploadThumbnail_error : ProcessingError := perr UPLOAD_FAILED OUTPUT_UPLOAD.

(** [MuxService.uploadVideo]'s outer catch. *)
Definition uploadToMux_error : ProcessingError := perr UPLOAD_FAILED OUTPUT_UPLOAD.

(** [await Promise.all([uploadOutput, uploadThumbnail, uploadToMux])]: it
    rejects with the error of one of the failed uploads (the first to
    reject in time, chosen by the environment). *)
Definition upload_fork : PM unit :=
  let errs :=
    (if fails env SUploadBlob then [uploadOutput_error] else []) ++
    (if fails env SUploadThumbnail then [uploadThumbnail_error] else []) ++
    (if fails env SUploadMux then [uploadToMux_error] else []) in
  match errs with
  | [] => mret tt
  | e :: _ => throw (nth (fork_winner env) errs e)
  end.

(** [this.cleanup(context)]: errors are logged and swallowed. *)
Definition cleanup : PM unit := cleanupDirectory_ignoring.

(** The [catch] block of [processVideo]. *)
Definition on_error (e : ProcessingError) : PM unit :=
  s ← get;
  (if context_set s && negb (is_output_upload (pe_stage e))
   then cleanupDirectory_ignoring else mret tt) ;;
  throw e.

Definition processVideo : PM unit :=
  try_catch
    (validateRequest ;;
     verifyFFmpegInstallation ;;
     createProcessingContext ;;
     downloadAssets ;;
     extractMetadata ;;
     ffmpeg_processVideo ;;
     generateThumbnail ;;
     upload_fork ;;
     cleanup)
    on_error.

End Run.

Definition pre_transcode_steps : list Step :=
  [SValidate; SVerifyFFmpeg; SCreateWorkspace; SDownload; SMetadata; STranscode].

Definition upload_steps : list Step := [SUploadBlob; SUploadThumbnail; SUploadMux].

End Pipeline.

(* ------------------------------------------------------------------ *)
(** ** Request validation: the Joi schema of a video clip (validation/schemas) *)

Module Validation.

(** A JSON value in the request body, as far as the clip schema looks at
    it; a numeric string, which Joi converts, is given by its number. *)
Inductive JsValue := JNumber (x : Q) | JString (s : string) | JOther.

(** A raw element of [videoClips]: its [url] and [duration] keys
    ([None] when the key is absent). *)
Record ClipInput := { in_url : option JsValue; in_duration : option JsValue }.

Record VideoClip := { url : string; duration : Q }.

Inductive JoiError :=
  | AnyRequired | StringBase | StringUri | StringPatternName
  | NumberBase | NumberMin | NumberMax
  | ArrayMin | ArrayMax.

Definition ends_with (suffix s : string) : bool :=
  bool_decide (String.substring (String.length s - String.length suffix)
                 (String.length suffix) s = suffix).

Definition has_line_terminator (s : string) : bool :=
  existsb (fun c => bool_decide (c = Ascii.ascii_of_nat 10) || bool_decide (c = Ascii.ascii_of_nat 13))
    (String.list_ascii_of_string s).

(** [/^https:\/\/.*\.(mp4|mov|avi|mkv)$/]: [.] does not match a line
    terminator. *)
Definition clip_url_pattern (s : string) : bool :=
  String.prefix "https://" s && Nat.leb 12 (String.length s) &&
  existsb (fun ext => ends_with ext s) [".mp4"; ".mov"; ".avi"; ".mkv"] &&
  negb (has_line_terminator s).

Section Schema.
(** Joi's [string().uri()] test (RFC 3986 syntax), left abstract. *)
Variable uri_ok : string -> bool.

(** [url: Joi.string().uri().required().pattern(...)] *)
Definition validate_url (v : option JsValue) : list JoiError + string :=
  match v with
  | None => inl [AnyRequired]
  | Some (JString s) =>
      match (if uri_ok s then [] else [StringUri]) ++
            (if clip_url_pattern s then [] else [StringPatternName]) with
      | [] => inr s
      | errs => inl errs
      end
  | Some _ => inl [StringBase]
  end.

(** [duration: Joi.number().min(1).max(60).default(8)] *)
Definition validate_duration (v : option JsValue) : list JoiError + Q :=
  match v with
  | None => inr 8
  | Some (JNumber x) =>
      match (if Qle_bool 1 x then [] else [NumberMin]) ++
            (if Qle_bool x 60 then [] else [NumberMax]) with
      | [] => inr x
      | errs => inl errs
      end
  | Some _ => inl [NumberBase]
  end.

(** [videoClipSchema] with [abortEarly: false]: the errors of both keys. *)
Definition validate_clip (c : ClipInput) : list JoiError + VideoClip :=
  match validate_url (in_url c), validate_duration (in_duration c) with
  | inr u, inr d => inr {| url := u; duration := d |}
  | r1, r2 =>
      inl ((match r1 with inl e => e | inr _ => [] end) ++
           (match r2 with inl e => e | inr _ => [] end))
  end.

(** [videoClips: Joi.array().items(videoClipSchema).min(1).max(50).required()] *)
Definition validate_videoClips (l : list ClipInput) : list JoiError + list VideoClip :=
  let items := map validate_clip l in
  let errs :=
    (if Nat.ltb (length l) 1 then [ArrayMin] else []) ++
    (if Nat.ltb 50 (length l) then [ArrayMax] else []) ++
    concat (map (fun r => match r with inl e => e | inr _ => [] end) items) in
  match errs with
  | [] => inr (omap (fun r => match r with inr c => Some c | inl _ => None end) items)
  | _ => inl errs
  end.

(** [validateProcessVideoRequest], seen through its [videoClips] key:
    [other_errors] are the errors Joi reports for the other keys of the
    body; any error makes it throw ([None]). *)
Definition validateProcessVideoRequest (clips : list ClipInput)
    (other_errors : list JoiError) : option (list VideoClip) :=
  match validate_videoClips clips, other_errors with
  | inr value, [] => Some value
  | _, _ => None
  end.

End Schema.

End Validation.

(* ------------------------------------------------------------------ *)
(** ** FileManager.downloadAssets *)

Module Downloads.
Import Types.

(** [path.join(dir, name)] for a directory without trailing separator
    (such as [path.join('/tmp', processId)]) and a plain file name: the two
    joined by one [/]. *)
Definition path_join (dir name : string) : string := dir +:+ "/" +:+ name.

(** [`clip_${i + 1}.mp4`] *)
Definition clip_file_name (i : nat) : string := "clip_" +:+ pretty (S i) +:+ ".mp4".

Definition clip_path (tempDir : string) (i : nat) : string :=
  path_join tempDir (clip_file_name i).

Definition download_error : ProcessingError :=
  {| pe_code := DOWNLOAD_FAILED; pe_stage := ASSET_DOWNLOAD |}.

(** [await this.downloadFile(url, destination, ...)]: [log] lists the
    destinations of the calls made so far; [download_fails k] says whether
    call number [k] (from 0) throws. *)
Definition downloadFile (download_fails : nat -> bool) (destination : string)
    (log : list string) : bool * list string :=
  (negb (download_fails (length log)), log ++ [destination]).

(** [for (let i = 0; i < videoClipUrls.length; i++) { clipPath = ...;
       await this.downloadFile(...); videoClips.push(clipPath); }]
    with [k] iterations left; [None] when a download throws. *)
Fixpoint clips_loop (download_fails : nat -> bool) (tempDir : string) (i k : nat)
    (videoClips : list string) (log : list string) : option (list string) * list string :=
  match k with
  | O => (Some videoClips, log)
  | S k' =>
      let clipPath := clip_path tempDir i in
      let '(ok, log') := downloadFile download_fails clipPath log in
      if ok then clips_loop download_fails tempDir (S i) k' (videoClips ++ [clipPath]) log'
      else (None, log')
  end.

(** One run of [downloadAssets]: the destinations of the [downloadFile]
    calls in order, whether its [catch] ran [cleanupDirectory(tempDir)], and
    the result ([videoClips], [assFile], [songFile]) or the rethrown error. *)
Record DownloadRun := {
  attempted : list string;
  cleaned_up : bool;
  dl_result : ProcessingError + (list string * string * string)
}.

Definition downloadAssets (download_fails : nat -> bool) (videoClipUrls : list string)
    (tempDir : string) : DownloadRun :=
  let fail log := {| attempted := log; cleaned_up := true; dl_result := inl download_error |} in
  match clips_loop download_fails tempDir 0 (length videoClipUrls) [] [] with
  | (None, log) => fail log
  | (Some videoClips, log) =>
      let assFile := path_join tempDir "subtitles.ass" in
      let '(ok1, log1) := downloadFile download_fails assFile log in
      if negb ok1 then fail log1 else
      let songFile := path_join tempDir "song.mp3" in
      let '(ok2, log2) := downloadFile download_fails songFile log1 in
      if negb ok2 then fail log2 else
      {| attempted := log2; cleaned_up := false;
         dl_result := inr (videoClips, assFile, songFile) |}
  end.

(** The destinations of [downloadAssets] in program order. *)
Definition planned_downloads (tempDir : string) (n : nat) : list string :=
  map (clip_path tempDir) (seq 0 n) ++
  [path_join tempDir "subtitles.ass"; path_join tempDir "song.mp3"].

(** [context.localFiles] after [processVideo]'s update: the downloaded files,
    then [outputFile = path.join(tempDir, 'final_video.mp4')] and
    [thumbnailFile = path.join(tempDir, 'thumbnail.jpg')]. *)
Definition context_local_files (tempDir : string) (videoClips : list string)
    (assFile songFile : string) : list string :=
  videoClips ++ [assFile; songFile; path_join tempDir "final_video.mp4";
                 path_join tempDir "thumbnail.jpg"].

End Downloads.

(* ------------------------------------------------------------------ *)
(** ** The error of each step of VideoProcessor.processVideo *)

Module PipelineErrors.
Import Types Pipeline.

(** The [ProcessingError] each awaited call of [processVideo] rejects with,
    as thrown by the functions of [Pipeline]. *)
Definition step_error (s : Step) : ProcessingError :=
  match s with
  | SValidate => perr VALIDATION_ERROR VALIDATION
  | SVerifyFFmpeg => perr FFMPEG_PROCESSING_ERROR VALIDATION
  | SCreateWorkspace => perr VALIDATION_ERROR VALIDATION
  | SDownload => perr DOWNLOAD_FAILED ASSET_DOWNLOAD
  | SMetadata => perr METADATA_EXTRACTION_ERROR METADATA_EXTRACTION
  | STranscode => perr FFMPEG_PROCESSING_ERROR VIDEO_PROCESSING
  | SThumbnail => perr FFMPEG_PROCESSING_ERROR VIDEO_PROCESSING
  | SUploadBlob | SUploadThumbnail | SUploadMux => perr UPLOAD_FAILED OUTPUT_UPLOAD
  end.

(** The calls before the upload fork, in program order. *)
Definition steps_before_fork : list Step :=
  [SValidate; SVerifyFFmpeg; SCreateWorkspace; SDownload; SMetadata; STranscode; SThumbnail].

Definition all_steps : list Step := steps_before_fork ++ upload_steps.

End PipelineErrors.

(* ------------------------------------------------------------------ *)
(** ** The Express server (index): authentication and status codes *)

Module Server.
Import Types.

(** The string value of each [ProcessingErrorCode] member. *)
Definition code_string (c : ProcessingErrorCode) : string :=
  match c with
  | VALIDATION_ERROR => "VALIDATION_ERROR"
  | DOWNLOAD_FAILED => "DOWNLOAD_FAILED"
  | METADATA_EXTRACTION_ERROR => "METADATA_EXTRACTION_ERROR"
  | FFMPEG_PROCESSING_ERROR => "FFMPEG_PROCESSING_ERROR"
  | UPLOAD_FAILED => "UPLOAD_FAILED"
  | CLEANUP_ERROR => "CLEANUP_ERROR"
  end.

(** [getHttpStatusCode(errorCode)] *)
Definition getHttpStatusCode (errorCode : string) : nat :=
  if bool_decide (errorCode = "VALIDATION_ERROR") then 400%nat
  else if bool_decide (errorCode = "UNAUTHORIZED") then 401%nat
  else if existsb (fun c => bool_decide (errorCode = c))
            ["DOWNLOAD_FAILED"; "METADATA_EXTRACTION_ERROR"; "FFMPEG_PROCESSING_ERROR";
             "UPLOAD_FAILED"; "CONFIGURATION_ERROR"] then 500%nat
  else if bool_decide (errorCode = "CLEANUP_ERROR") then 200%nat
  else 500%nat.

(** [new VideoProcessor()]: the constructors of [BlobService]
    ([process.env.BLOB_READ_WRITE_TOKEN || '']) and [MuxService] throw a
    VALIDATION_ERROR when their credentials are missing or empty. *)
Definition VideoProcessor_new (BLOB_READ_WRITE_TOKEN MUX_TOKEN_ID MUX_TOKEN_SECRET : option string)
    : option ProcessingError :=
  let token := default "" BLOB_READ_WRITE_TOKEN in
  if bool_decide (token = "") then
    Some {| pe_code := VALIDATION_ERROR; pe_stage := VALIDATION |}
  else if negb (Mux.truthy MUX_TOKEN_ID) || negb (Mux.truthy MUX_TOKEN_SECRET) then
    Some {| pe_code := VALIDATION_ERROR; pe_stage := VALIDATION |}
  else None.

(** The status code of the answer of [POST /process-video] (after
    authentication): the constructor and [processor.processVideo] run in
    its [try]; a [ProcessingError] is answered with
    [getHttpStatusCode(error.code)], a result with 200. *)
Definition process_video_route (BLOB_READ_WRITE_TOKEN MUX_TOKEN_ID MUX_TOKEN_SECRET : option string)
    (env : Pipeline.Env) : nat :=
  match VideoProcessor_new BLOB_READ_WRITE_TOKEN MUX_TOKEN_ID MUX_TOKEN_SECRET with
  | Some e => getHttpStatusCode (code_string (pe_code e))
  | None =>
      match fst (Pipeline.processVideo env Pipeline.initial_state) with
      | inr _ => 200%nat
      | inl e => getHttpStatusCode (code_string (pe_code e))
      end
  end.

Inductive AuthResult := AuthNext | AuthReject (status : nat) (code : string).

(** [authenticateApiKey]: [validApiKey] is [process.env.X_API_KEY],
    [providedApiKey] the [x-api-key] header ([None] when absent). *)
Definition authenticateApiKey (validApiKey providedApiKey : option string) : AuthResult :=
  if negb (Mux.truthy validApiKey) then AuthReject 500 "CONFIGURATION_ERROR"
  else if negb (Mux.truthy providedApiKey) then AuthReject 401 "UNAUTHORIZED"
  else if bool_decide (providedApiKey <> validApiKey) then AuthReject 401 "UNAUTHORIZED"
  else AuthNext.

End Server.

(* ------------------------------------------------------------------ *)
(** ** The Joi schema of [songId] (validation/schemas) *)

Module SongIdSchema.

(** A character of the class [[a-zA-Z0-9-]]. *)
Definition songId_char (c : Ascii.ascii) : bool :=
  let n := Ascii.nat_of_ascii c in
  (Nat.leb 97 n && Nat.leb n 122) || (Nat.leb 65 n && Nat.leb n 90) ||
  (Nat.leb 48 n && Nat.leb n 57) || Nat.eqb n 45.

(** [Joi.string().pattern(/^[a-zA-Z0-9-]+$/).min(3).max(50).required()]
    accepts the string [s]. *)
Definition songId_valid (s : string) : bool :=
  forallb songId_char (String.list_ascii_of_string s) &&
  Nat.leb 1 (String.length s) &&
  Nat.leb 3 (String.length s) && Nat.leb (String.length s) 50.

End SongIdSchema.

(* ================================================================== *)
(** * Properties *)

Module OffsetsFacts.
Import Offsets.

(** [0 + x] is [x] in binary64 for every [x] but [-0] ([0 + -0] is [+0]). *)
Lemma float_add_0_l (x : float) : x <> (-0)%float -> (0 + x)%float = x.
Proof.
  intros Hx.
  rewrite <- (SF2Prim_Prim2SF (0 + x)%float), add_spec.
  assert (H0 : Prim2SF 0%float = S754_zero false) by reflexivity.
  rewrite H0.
  transitivity (SF2Prim (Prim2SF x)); [|apply SF2Prim_Prim2SF].
  rewrite <- (SF2Prim_Prim2SF x) in Hx.
  destruct (Prim2SF x) as [[]|[]| |[] m e]; try reflexivity.
  exfalso. apply Hx. reflexivity.
Qed.

Lemma offsets_loop_length ds t cum i k :
  length (offsets_loop ds t cum i k) = k.
Proof.
  revert cum i. induction k as [|k IH]; intros cum i; simpl; [done|].
  by rewrite IH.
Qed.

Lemma offsets_loop_head ds t cum i k :
  nth_error (offsets_loop ds t cum i (S k)) 0 =
  Some (cum + (nth i ds 0 - t))%float.
Proof. reflexivity. Qed.

Lemma offsets_loop_step ds t j : forall cum i k,
  (S j < k)%nat ->
  exists prev cur,
    nth_error (offsets_loop ds t cum i k) j = Some prev /\
    nth_error (offsets_loop ds t cum i k) (S j) = Some cur /\
    cur = (prev + (nth (i + S j) ds 0 - t))%float.
Proof.
  induction j as [|j IH]; intros cum i k Hk.
  - destruct k as [|[|k]]; [lia|lia|].
    simpl. eexists _, _. split; [reflexivity|]. split; [reflexivity|].
    by replace (i + 1)%nat with (S i) by lia.
  - destruct k as [|k]; [lia|].
    simpl offsets_loop.
    destruct (IH (cum + (nth i ds 0 - t))%float (S i) k ltac:(lia))
      as (prev & cur & H1 & H2 & H3).
    exists prev, cur. simpl. split; [done|]. split; [done|].
    rewrite H3. by replace (S i + S j)%nat with (i + S (S j))%nat by lia.
Qed.

End OffsetsFacts.

Module OffsetsClaims.
Import Offsets OffsetsFacts.

Example offsets_scenario_A :
  calculateTransitionOffsets [8; 8]%float 0.5%float = [7.5%float].
Proof. reflexivity. Qed.

Example offsets_single_clip : calculateTransitionOffsets [10%float] 0.5%float = [].
Proof. reflexivity. Qed.

(** Claim C1 (as corrected): for [n >= 2] clip durations [d] and a fade [t]
    (JavaScript numbers, i.e. binary64 values), [calculateTransitionOffsets d t]
    has exactly [n-1] entries; [offset[0]] is the double [d[0] - t] (the code
    computes [0 + (d[0] - t)], which only turns a [-0] difference into [+0]);
    and for [1 <= i < n-1], [offset[i]] is [offset[i-1] + (d[i] - t)] with
    each subtraction and addition rounded to the nearest double.  The result
    is a function of [d] and [t] alone. *)
Theorem calculateTransitionOffsets_recurrence (d : list float) (t : float)
    (Hn : (2 <= length d)%nat) :
  length (calculateTransitionOffsets d t) = (length d - 1)%nat /\
  ((nth 0 d 0 - t)%float <> (-0)%float ->
     nth_error (calculateTransitionOffsets d t) 0 = Some (nth 0 d 0 - t)%float) /\
  (forall i, (1 <= i < length d - 1)%nat ->
     exists prev cur,
       nth_error (calculateTransitionOffsets d t) (i - 1) = Some prev /\
       nth_error (calculateTransitionOffsets d t) i = Some cur /\
       cur = (prev + (nth i d 0 - t))%float).
Proof.
  unfold calculateTransitionOffsets. split; [|split].
  - apply offsets_loop_length.
  - intros Hz.
    destruct (length d - 1)%nat as [|k] eqn:E; [lia|].
    rewrite offsets_loop_head. f_equal. by apply float_add_0_l.
  - intros i Hi.
    destruct (offsets_loop_step d t (i - 1) 0%float 0 (length d - 1) ltac:(lia))
      as (prev & cur & H1 & H2 & H3).
    replace (S (i - 1)) with i in H2 by lia.
    replace (0 + S (i - 1))%nat with i in H3 by lia.
    exists prev, cur. split; [done|]. split; [done|]. done.
Qed.

Lemma calculateTransitionOffsets_recurrence_witness :
  (2 <= length [8; 8; 6]%float)%nat /\
  length (calculateTransitionOffsets [8; 8; 6]%float 0.5%float) = 2%nat.
Proof.
  split; [simpl; lia|].
  apply (calculateTransitionOffsets_recurrence [8; 8; 6]%float 0.5%float). simpl; lia.
Defined.

(** Claim C1, counterexample to the exact form: for [d = [1; 1.7; 8]] and
    [t = 0.3] the code returns [[0.7; 2.0999999999999996]].  The second
    offset is not [offset[0] + d[1] - t] as JavaScript evaluates that
    expression left to right ([(0.7 + 1.7) - 0.3 = 2.1]), and
    [offset[1] - offset[0]] ([1.3999999999999997]) is not [d[1] - t]
    ([1.4]): the recurrence and the difference identity hold only up to
    rounding. *)
Lemma calculateTransitionOffsets_rounding :
  calculateTransitionOffsets [1; 1.7; 8]%float 0.3%float =
    [0.7; 2.0999999999999996]%float /\
  ((0.7 + 1.7 - 0.3) =? 2.0999999999999996)%float = false /\
  ((2.0999999999999996 - 0.7) =? (1.7 - 0.3))%float = false.
Proof. split; [|split]; vm_compute; reflexivity. Qed.

End OffsetsClaims.

Module FileNameClaims.
Import FileNames.

(** Claim C9: the output file name depends only on the process identifier
    and the extension ([final_video_<processId>.<extension>] for every
    songId); the songId only enters the storage path built by
    [generateBlobPath], which is [videos/<songId>/<fileName>]. *)
Theorem generateFileName_songId_independent (songId1 songId2 processId extension : string) :
  generateFileName songId1 processId extension = generateFileName songId2 processId extension /\
  generateFileName songId1 processId extension = "final_video_" +:+ processId +:+ "." +:+ extension /\
  (forall fileName,
     generateBlobPath songId1 fileName = "videos/" +:+ songId1 +:+ "/" +:+ fileName).
Proof. split; [done|]. split; [done|]. intros fileName. done. Qed.

End FileNameClaims.

Module FFmpegFacts.
Import FFmpeg.

Definition xfade_name (n i : nat) : string :=
  if Nat.eqb i (n - 1) then "video_out" else fade_label i.

Lemma chains_scaled (w h : nat) (rest : list FilterPiece) (is : list nat) :
  filtergraph_chains [] (map (fun i => FScale i w h) is ++ rest) =
  map (fun i => {| fc_inputs := [pretty i +:+ ":v"];
                   fc_filter := KScaleSetsar w h;
                   fc_outputs := [vlabel i] |}) is ++ filtergraph_chains [] rest.
Proof. induction is as [|i is IH]; simpl; [done|]. by rewrite IH. Qed.

Lemma chains_xfade n t offs rest : forall k cur i,
  filtergraph_chains [] (xfade_loop n t offs cur i k ++ rest) =
  left_fold_spec t offs (xfade_name n) cur (seq i k) ++ filtergraph_chains [] rest.
Proof.
  induction k as [|k IH]; intros cur i; simpl; [done|].
  unfold xfade_name at 1 2. by rewrite IH.
Qed.

Lemma xfade_loop_no_xfade_free n t offs cur i k :
  Forall (fun p => is_xfade p = true) (xfade_loop n t offs cur i k).
Proof.
  revert cur i. induction k as [|k IH]; intros cur i; simpl; constructor; [done|].
  apply IH.
Qed.

Lemma cmd_inputs_foldl (l : list string) : forall c,
  cmd_inputs (foldl cmd_input c l) = cmd_inputs c ++ l.
Proof.
  induction l as [|x l IH]; intros c; simpl.
  - by rewrite app_nil_r.
  - rewrite IH. simpl. by rewrite <- app_assoc.
Qed.

Lemma cmd_outputOptions_foldl (l : list string) : forall c,
  cmd_outputOptions (foldl cmd_input c l) = cmd_outputOptions c.
Proof. induction l as [|x l IH]; intros c; simpl; [done|]. by rewrite IH. Qed.

Lemma list_ascii_of_string_app (a b : string) :
  String.list_ascii_of_string (a +:+ b) =
  String.list_ascii_of_string a ++ String.list_ascii_of_string b.
Proof. induction a as [|c a IH]; simpl; [done|]. by rewrite IH. Qed.

Lemma string_app_cancel_r (a b s : string) : a +:+ s = b +:+ s -> a = b.
Proof.
  intros H. apply (f_equal String.list_ascii_of_string) in H.
  rewrite !list_ascii_of_string_app in H. apply app_inv_tail in H.
  rewrite <- (String.string_of_list_ascii_of_string a),
          <- (String.string_of_list_ascii_of_string b).
  by rewrite H.
Qed.

Lemma processVideo_command_fields fontsDir ctx :
  cmd_inputs (processVideo_command fontsDir ctx) =
    lf_videoClips (ctx_localFiles ctx) ++
      [songFile (ctx_localFiles ctx); assFile (ctx_localFiles ctx)] /\
  option_values "-map" (cmd_outputOptions (processVideo_command fontsDir ctx)) =
    [Lit "[vout]"; Lit (pretty (length (lf_videoClips (ctx_localFiles ctx))) +:+ ":a")] /\
  option_values "-t" (cmd_outputOptions (processVideo_command fontsDir ctx)) =
    [NumStr (songDuration (ctx_metadata ctx)) ""].
Proof.
  unfold processVideo_command.
  destruct (compressionSettings _) as [crf preset].
  simpl. rewrite cmd_inputs_foldl, cmd_outputOptions_foldl. simpl.
  split; [by rewrite <- app_assoc|]. split; reflexivity.
Qed.

End FFmpegFacts.

Module FFmpegClaims.
Import Offsets FFmpeg FFmpegFacts.

Definition sample_context (clips : list string) (offsets : list float) : ProcessingContext :=
  {| ctx_request :=
       {| videoClips := map (fun u => {| clip_url := u; clip_duration := 8 |}) clips;
          songId := "song-1"; outputAspectRatio := AR_9_16;
          transitionDuration := Some (1#2); compressionLevel := None;
          audioBitrate := None |};
     ctx_localFiles :=
       {| lf_videoClips := clips; assFile := "/tmp/p/subtitles.ass";
          songFile := "/tmp/p/song.mp3"; outputFile := "/tmp/p/final_video.mp4" |};
     ctx_metadata :=
       {| songDuration := 12; totalClipDuration := 16; transitionOffsets := offsets |} |}.

Example filter_two_clips :
  buildFilterComplex "/app/fonts" (sample_context ["a"; "b"] [7.5%float]) =
  [FScale 0 1080 1920; FScale 1 1080 1920;
   FXfade "v0" "v1" (1#2) (Some 7.5%float) "video_out";
   FAss "video_out" "/tmp/p/subtitles.ass" "/app/fonts"].
Proof. reflexivity. Qed.

Example filter_three_clips_labels :
  filtergraph_chains [] (buildFilterComplex "/app/fonts" (sample_context ["a"; "b"; "c"] [7.5; 15]%float))
  = [ {| fc_inputs := ["0:v"]; fc_filter := KScaleSetsar 1080 1920; fc_outputs := ["v0"] |};
      {| fc_inputs := ["1:v"]; fc_filter := KScaleSetsar 1080 1920; fc_outputs := ["v1"] |};
      {| fc_inputs := ["2:v"]; fc_filter := KScaleSetsar 1080 1920; fc_outputs := ["v2"] |};
      {| fc_inputs := ["v0"; "v1"]; fc_filter := KXfade (1#2) (Some 7.5%float);
         fc_outputs := ["v1_fade"] |};
      {| fc_inputs := ["v1_fade"; "v2"]; fc_filter := KXfade (1#2) (Some 15%float);
         fc_outputs := ["video_out"] |};
      {| fc_inputs := ["video_out"]; fc_filter := KAss "/tmp/p/subtitles.ass" "/app/fonts";
         fc_outputs := ["vout"] |} ].
Proof. reflexivity. Qed.

(** Claim C4: for [n >= 2] clips, the filter graph of [buildFilterComplex]
    is the [n] scale chains followed by a strict left fold: scaled stream 0
    is combined with scaled stream 1 at [offset[0]] with duration [t], each
    intermediate result is combined with scaled stream [i] at [offset[i-1]]
    for [i = 1 .. n-1] in order, and the single merged stream ([video_out],
    the fold's last output) is the only input of the subtitle stage. *)
Theorem buildFilterComplex_left_fold (fontsDir : string) (ctx : ProcessingContext)
    (Hn : (2 <= length (lf_videoClips (ctx_localFiles ctx)))%nat) :
  let n := length (lf_videoClips (ctx_localFiles ctx)) in
  let t := or_default (transitionDuration (ctx_request ctx)) (1#2) in
  let wh := ASPECT_RATIO_CONFIGS (outputAspectRatio (ctx_request ctx)) in
  filtergraph_chains [] (buildFilterComplex fontsDir ctx) =
    scale_chains (fst wh) (snd wh) n ++
    left_fold_spec t (transitionOffsets (ctx_metadata ctx)) (xfade_name n) "v0"
      (seq 1 (n - 1)) ++
    [ {| fc_inputs := [xfade_name n (n - 1)];
         fc_filter := KAss (assFile (ctx_localFiles ctx)) fontsDir;
         fc_outputs := ["vout"] |} ] /\
  xfade_name n (n - 1) = "video_out".
Proof.
  intros n t wh. unfold buildFilterComplex, scale_chains.
  fold n t. subst wh.
  destruct (ASPECT_RATIO_CONFIGS _) as [w h]. simpl fst; simpl snd.
  assert (Hneq : Nat.eqb n 1 = false) by (apply Nat.eqb_neq; subst n; lia).
  assert (Hname : xfade_name n (n - 1) = "video_out")
    by (unfold xfade_name; by rewrite Nat.eqb_refl).
  rewrite Hneq, chains_scaled, chains_xfade, Hname. simpl. split; reflexivity.
Qed.

Lemma buildFilterComplex_left_fold_witness :
  (2 <= length (lf_videoClips (ctx_localFiles (sample_context ["a"; "b"; "c"] [7.5; 15]%float))))%nat /\
  xfade_name 3 2 = "video_out".
Proof.
  split; [simpl; lia|].
  apply (buildFilterComplex_left_fold "/app/fonts" (sample_context ["a"; "b"; "c"] [7.5; 15]%float)).
  simpl; lia.
Defined.

(** Claim C5 (as the code behaves): for a single clip there are no offsets
    and no xfade stage, but the single-clip branch appends [[v0]] and the
    subtitle branch then writes [[v0]ass=...[vout]], so the subtitle filter
    is given the input labels [v0] twice. *)
Theorem buildFilterComplex_single_clip (fontsDir : string) (ctx : ProcessingContext)
    (H1 : length (lf_videoClips (ctx_localFiles ctx)) = 1%nat) :
  (forall d t, calculateTransitionOffsets [d] t = []) /\
  Forall (fun p => is_xfade p = false) (buildFilterComplex fontsDir ctx) /\
  filtergraph_chains [] (buildFilterComplex fontsDir ctx) =
    [ {| fc_inputs := ["0:v"];
         fc_filter := KScaleSetsar (fst (ASPECT_RATIO_CONFIGS (outputAspectRatio (ctx_request ctx))))
                                   (snd (ASPECT_RATIO_CONFIGS (outputAspectRatio (ctx_request ctx))));
         fc_outputs := ["v0"] |};
      {| fc_inputs := ["v0"; "v0"];
         fc_filter := KAss (assFile (ctx_localFiles ctx)) fontsDir;
         fc_outputs := ["vout"] |} ].
Proof.
  split; [done|].
  unfold buildFilterComplex. rewrite H1.
  destruct (ASPECT_RATIO_CONFIGS _) as [w h]. simpl.
  split; [repeat constructor|reflexivity].
Qed.

Lemma buildFilterComplex_single_clip_witness :
  length (lf_videoClips (ctx_localFiles (sample_context ["a"] []))) = 1%nat /\
  filtergraph_chains [] (buildFilterComplex "/app/fonts" (sample_context ["a"] [])) =
    [ {| fc_inputs := ["0:v"]; fc_filter := KScaleSetsar 1080 1920; fc_outputs := ["v0"] |};
      {| fc_inputs := ["v0"; "v0"]; fc_filter := KAss "/tmp/p/subtitles.ass" "/app/fonts";
         fc_outputs := ["vout"] |} ].
Proof.
  split; [reflexivity|].
  apply (buildFilterComplex_single_clip "/app/fonts" (sample_context ["a"] [])).
  reflexivity.
Defined.

(** Claim C6: the transcode command's inputs are the clip files in order,
    then the song, then the subtitle file; its [-map] values are exactly
    the graph's terminal label [[vout]] and [n:a], the audio of input [n]
    (the song), and never [i:a] for a clip [i < n]. *)
Theorem processVideo_inputs_and_mapping (fontsDir : string) (ctx : ProcessingContext) :
  let n := length (lf_videoClips (ctx_localFiles ctx)) in
  let cmd := processVideo_command fontsDir ctx in
  cmd_inputs cmd = lf_videoClips (ctx_localFiles ctx) ++
                     [songFile (ctx_localFiles ctx); assFile (ctx_localFiles ctx)] /\
  nth_error (cmd_inputs cmd) n = Some (songFile (ctx_localFiles ctx)) /\
  option_values "-map" (cmd_outputOptions cmd) = [Lit "[vout]"; Lit (pretty n +:+ ":a")] /\
  (forall i, (i < n)%nat -> Lit (pretty i +:+ ":a") ∉ option_values "-map" (cmd_outputOptions cmd)).
Proof.
  intros n cmd.
  destruct (processVideo_command_fields fontsDir ctx) as (Hin & Hmap & _).
  fold cmd in Hin, Hmap.
  split; [done|]. split.
  { rewrite Hin, nth_error_app2 by lia. subst n. by rewrite Nat.sub_diag. }
  split; [done|].
  intros i Hi Hel. rewrite Hmap in Hel.
  apply elem_of_cons in Hel as [Hel|Hel].
  - inversion Hel as [Hs].
    apply (f_equal (fun s => last (String.list_ascii_of_string s))) in Hs.
    rewrite list_ascii_of_string_app in Hs. simpl in Hs.
    rewrite last_app_cons in Hs. discriminate Hs.
  - apply list_elem_of_singleton in Hel. inversion Hel as [Hs].
    apply string_app_cancel_r, (inj pretty) in Hs. lia.
Qed.

(** Claim C7: the command always carries the output option [-t] with the
    value [metadata.songDuration.toString()] (and no other [-t]), so with
    ffmpeg's [-t] semantics the rendered duration never exceeds the probed
    song duration, whatever the length of the clip timeline. *)
Theorem processVideo_duration_ceiling (fontsDir : string) (ctx : ProcessingContext) :
  option_values "-t" (cmd_outputOptions (processVideo_command fontsDir ctx)) =
    [NumStr (songDuration (ctx_metadata ctx)) ""] /\
  (forall timeline : Q,
     rendered_duration (processVideo_command fontsDir ctx) timeline <=
       songDuration (ctx_metadata ctx)).
Proof.
  destruct (processVideo_command_fields fontsDir ctx) as (_ & _ & Ht).
  split; [done|]. intros timeline.
  unfold rendered_duration. rewrite Ht. simpl. apply Q.le_min_r.
Qed.

End FFmpegClaims.

Module MuxFacts.
Import Types Mux.
Local Open Scope nat_scope.







End MuxFacts.

Module MuxClaims.
Import Types Mux MuxFacts.
Local Open Scope nat_scope.

(** The asset endpoint reports [errored] on the first poll and a ready
    asset with playback id [pb1] afterwards. *)
Definition errored_then_ready (k : nat) : AssetPoll :=
  if Nat.eqb k 0 then AssetGot {| status := errored; playback_ids := [] |}
  else AssetGot {| status := ready; playback_ids := ["pb1"] |}.

(** Claim C2 (as the code behaves): an [errored] status does not stop the
    asset poll.  The [throw] in the loop body is caught by the loop's own
    [catch], which waits and polls again, so here the client polls a second
    time and returns the asset as ready. *)
Theorem uploadVideo_errored_keeps_polling :
  uploadVideo_polls (Some "asset-1") (fun _ => UploadRetrieveFails) errored_then_ready =
    {| outcome := MuxOk "asset-1" "pb1"; ingest_polls := 0; asset_polls := 2 |}.
Proof. reflexivity. Qed.

Definition never_ready (k : nat) : AssetPoll :=
  AssetGot {| status := preparing; playback_ids := [] |}.

Example poll_budget_exhausted :
  uploadVideo_polls None (fun _ => UploadGot (Some "asset-1")) never_ready =
    {| outcome := mux_fail NotReadyTimeout; ingest_polls := 1; asset_polls := 30 |}.
Proof. reflexivity. Qed.

Example ingest_budget_exhausted :
  uploadVideo_polls None (fun _ => UploadGot None) never_ready =
    {| outcome := mux_fail NoAssetId; ingest_polls := 10; asset_polls := 0 |}.
Proof. reflexivity. Qed.





End MuxClaims.

Module PipelineFacts.
Import Types Pipeline.

Lemma nth_all_output_upload (n : nat) (l : list ProcessingError) (d : ProcessingError) :
  Forall (fun e => pe_stage e = OUTPUT_UPLOAD) l -> pe_stage d = OUTPUT_UPLOAD ->
  pe_stage (nth n l d) = OUTPUT_UPLOAD.
Proof.
  intros Hl Hd. revert n. induction Hl as [|x l Hx Hl IH]; intros [|n]; simpl; auto.
Qed.

Lemma upload_fork_fails (env : Env) (s : State) :
  existsb (fails env) upload_steps = true ->
  exists e, upload_fork env s = (inl e, s) /\ pe_stage e = OUTPUT_UPLOAD.
Proof.
  unfold upload_steps, upload_fork. simpl. intros H.
  destruct (fails env SUploadBlob), (fails env SUploadThumbnail), (fails env SUploadMux);
    simpl in H; try discriminate H;
    (eexists; split; [reflexivity|]);
    apply nth_all_output_upload; repeat constructor.
Qed.

Lemma upload_fork_ok (env : Env) (s : State) :
  existsb (fails env) upload_steps = false -> upload_fork env s = (inr tt, s).
Proof.
  unfold upload_steps, upload_fork. simpl. intros H.
  destruct (fails env SUploadBlob), (fails env SUploadThumbnail), (fails env SUploadMux);
    simpl in H; try discriminate H. reflexivity.
Qed.

End PipelineFacts.

Module PipelineClaims.
Import Types Pipeline PipelineFacts.

Ltac step_case E :=
  destruct E eqn:?; cbn -[upload_fork]; [eexists _, _; split; [reflexivity|]; done|].

(** Claim C3: workspace lifecycle of [VideoProcessor.processVideo].  If a
    call up to and including the transcode fails, the run throws and, when
    [fs.rm] works, the workspace (and any rendered file in it) no longer
    exists when the error propagates.  If every step up to the thumbnail
    succeeds and an upload of the fork fails, the run throws an
    OUTPUT_UPLOAD error and the workspace and the rendered file still
    exist. *)
Theorem processVideo_workspace_lifecycle (env : Env) :
  (existsb (fails env) pre_transcode_steps = true -> rm_succeeds env = true ->
   exists e s, processVideo env initial_state = (inl e, s) /\
               ws_exists s = false /\ output_exists s = false) /\
  (existsb (fails env) pre_transcode_steps = false -> fails env SThumbnail = false ->
   existsb (fails env) upload_steps = true ->
   exists e s, processVideo env initial_state = (inl e, s) /\
               pe_stage e = OUTPUT_UPLOAD /\
               ws_exists s = true /\ output_exists s = true).
Proof.
  split.
  - intros Hpre Hrm. unfold pre_transcode_steps in Hpre. simpl in Hpre.
    unfold processVideo, try_catch, validateRequest, verifyFFmpegInstallation,
      createProcessingContext, downloadAssets, extractMetadata, ffmpeg_processVideo,
      on_error, cleanupDirectory_ignoring, cleanupDirectory, try_catch.
    rewrite Hrm.
    step_case (fails env SValidate).
    step_case (fails env SVerifyFFmpeg).
    step_case (fails env SCreateWorkspace).
    step_case (fails env SDownload).
    step_case (fails env SMetadata).
    step_case (fails env STranscode).
    simpl in Hpre. discriminate Hpre.
  - intros Hpre Hthumb Hup. unfold pre_transcode_steps in Hpre. simpl in Hpre.
    apply orb_false_iff in Hpre as [H1 Hpre]. apply orb_false_iff in Hpre as [H2 Hpre].
    apply orb_false_iff in Hpre as [H3 Hpre]. apply orb_false_iff in Hpre as [H4 Hpre].
    apply orb_false_iff in Hpre as [H5 Hpre]. apply orb_false_iff in Hpre as [H6 _].
    set (s7 := {| context_set := true; ws_exists := true; output_exists := true |}).
    destruct (upload_fork_fails env s7 Hup) as (e & Hfork & Hst).
    exists e, s7.
    unfold processVideo, try_catch, validateRequest, verifyFFmpegInstallation,
      createProcessingContext, downloadAssets, extractMetadata, ffmpeg_processVideo,
      generateThumbnail.
    rewrite H1, H2, H3, H4, H5, H6, Hthumb.
    unfold mbind, mret, PM_bind, PM_ret, modify. cbn -[upload_fork].
    change (write_output (set_context (mkdir_workspace initial_state))) with s7.
    rewrite Hfork. unfold on_error, mbind, mret, PM_bind, PM_ret, get, throw.
    cbn. rewrite Hst. simpl. done.
Qed.

Definition env_download_fails : Env :=
  {| fails := fun st => match st with SDownload => true | _ => false end;
     fork_winner := 0; rm_succeeds := true |}.

Lemma processVideo_workspace_lifecycle_witness :
  existsb (fails env_download_fails) pre_transcode_steps = true /\
  rm_succeeds env_download_fails = true /\
  exists e s, processVideo env_download_fails initial_state = (inl e, s) /\
              ws_exists s = false /\ output_exists s = false.
Proof.
  split; [reflexivity|]. split; [reflexivity|].
  apply (proj1 (processVideo_workspace_lifecycle env_download_fails)); reflexivity.
Defined.

End PipelineClaims.

(* ------------------------------------------------------------------ *)
Module ValidationFacts.
Import Validation.

Definition clip_errors (r : list JoiError + VideoClip) : list JoiError :=
  match r with inl e => e | inr _ => [] end.

Lemma validate_clip_absent_duration uri_ok u :
  uri_ok u = true -> clip_url_pattern u = true ->
  validate_clip uri_ok {| in_url := Some (JString u); in_duration := None |} =
  inr {| url := u; duration := 8 |}.
Proof. intros Hu Hp. unfold validate_clip; simpl. rewrite Hu, Hp. reflexivity. Qed.

Lemma validate_duration_out_of_range x :
  (x < 1 \/ 60 < x)%Q ->
  exists errs, validate_duration (Some (JNumber x)) = inl errs /\ errs <> [].
Proof.
  intros Hx. simpl.
  destruct (Qle_bool 1 x) eqn:E1; destruct (Qle_bool x 60) eqn:E2; simpl;
    try (eexists; split; [reflexivity | discriminate]).
  apply Qle_bool_iff in E1. apply Qle_bool_iff in E2.
  exfalso. destruct Hx as [Hx|Hx]; eapply Qlt_not_le; eauto.
Qed.

Lemma validate_clip_out_of_range uri_ok c x :
  in_duration c = Some (JNumber x) -> (x < 1 \/ 60 < x)%Q ->
  clip_errors (validate_clip uri_ok c) <> [].
Proof.
  intros Hd Hx. destruct (validate_duration_out_of_range x Hx) as [errs [He Hne]].
  unfold validate_clip. rewrite Hd, He.
  destruct (validate_url uri_ok (in_url c)); simpl; intros Happ;
    try (apply app_eq_nil in Happ as [_ Happ]); exact (Hne Happ).
Qed.

Lemma concat_errors_nonempty uri_ok clips c :
  c ∈ clips -> clip_errors (validate_clip uri_ok c) <> [] ->
  concat (map (fun r => match r with inl e => e | inr _ => [] end)
                (map (validate_clip uri_ok) clips)) <> [].
Proof.
  intros Hin Hne. apply list_elem_of_split in Hin as (l1 & l2 & ->).
  rewrite !map_app, concat_app. simpl. intros Happ.
  apply app_eq_nil in Happ as [_ Happ]. apply app_eq_nil in Happ as [Happ _].
  exact (Hne Happ).
Qed.

Lemma valid_clips_no_errors uri_ok urls :
  Forall (fun u => uri_ok u = true /\ clip_url_pattern u = true) urls ->
  map (validate_clip uri_ok)
      (map (fun u => {| in_url := Some (JString u); in_duration := None |}) urls) =
  map (fun u => inr {| url := u; duration := 8 |}) urls.
Proof.
  induction 1 as [|u urls [Hu Hp] _ IH]; [reflexivity|].
  simpl. rewrite validate_clip_absent_duration by assumption. f_equal. exact IH.
Qed.

Lemma concat_inr_nil {A B} (l : list B) (g : B -> A) :
  concat (map (fun r : list JoiError + A => match r with inl e => e | inr _ => [] end)
              (map (fun u => inr (g u)) l)) = [].
Proof. induction l; simpl; auto. Qed.

Lemma omap_inr {A B} (l : list B) (g : B -> A) :
  omap (fun r : list JoiError + A => match r with inr c => Some c | inl _ => None end)
       (map (fun u => inr (g u)) l) = map g l.
Proof. induction l; simpl; f_equal; auto. Qed.

Lemma validate_clip_inl_nonempty uri_ok c e :
  validate_clip uri_ok c = inl e -> e <> [].
Proof.
  unfold validate_clip, validate_url, validate_duration.
  destruct (in_url c) as [[x|s|]|], (in_duration c) as [[y|s'|]|];
    repeat match goal with
           | |- context [if ?b then _ else _] => destruct b
           end; cbn; intros H; try discriminate H; injection H as <-; discriminate.
Qed.

Lemma items_all_ok uri_ok (l : list ClipInput) :
  concat (map (fun r => match r with inl e => e | inr _ => [] end) (map (validate_clip uri_ok) l)) = [] ->
  Forall2 (fun c v => validate_clip uri_ok c = inr v) l
    (omap (fun r => match r with inr c => Some c | inl _ => None end) (map (validate_clip uri_ok) l)).
Proof.
  induction l as [|c l IH]; simpl; [constructor|].
  intros H. apply app_eq_nil in H as [H1 H2].
  destruct (validate_clip uri_ok c) as [e|v] eqn:Hc.
  - exfalso. exact (validate_clip_inl_nonempty uri_ok c e Hc H1).
  - constructor; [done|]. apply IH, H2.
Qed.

Lemma items_all_ok_inv uri_ok (l : list ClipInput) (vs : list VideoClip) :
  Forall2 (fun c v => validate_clip uri_ok c = inr v) l vs ->
  concat (map (fun r => match r with inl e => e | inr _ => [] end) (map (validate_clip uri_ok) l)) = [] /\
  omap (fun r => match r with inr c => Some c | inl _ => None end) (map (validate_clip uri_ok) l) = vs.
Proof.
  induction 1 as [|c v l vs Hc _ [IH1 IH2]]; [done|].
  cbn [map]. rewrite Hc. split; [exact IH1|exact (f_equal (cons v) IH2)].
Qed.

Lemma validate_clip_default_duration uri_ok c u :
  in_url c = Some (JString u) -> uri_ok u = true -> clip_url_pattern u = true ->
  in_duration c = None ->
  validate_clip uri_ok c = inr {| url := u; duration := 8 |}.
Proof.
  intros Hurl Hu Hp Hd. unfold validate_clip, validate_url, validate_duration.
  rewrite Hurl, Hd, Hu, Hp. reflexivity.
Qed.

Lemma validate_videoClips_inr_items uri_ok l vs :
  validate_videoClips uri_ok l = inr vs ->
  Forall2 (fun c v => validate_clip uri_ok c = inr v) l vs.
Proof.
  unfold validate_videoClips. cbv zeta.
  destruct (_ ++ _ ++ _) as [|e errs] eqn:E; [|discriminate].
  intros H. injection H as <-.
  apply app_eq_nil in E as [_ E]. apply app_eq_nil in E as [_ E].
  apply items_all_ok, E.
Qed.

Lemma validate_videoClips_items_inr uri_ok l vs :
  (1 <= length l <= 50)%nat ->
  Forall2 (fun c v => validate_clip uri_ok c = inr v) l vs ->
  validate_videoClips uri_ok l = inr vs.
Proof.
  intros Hlen Hall. unfold validate_videoClips. cbv zeta.
  destruct (items_all_ok_inv uri_ok l vs Hall) as [E3 Hvs].
  destruct (Nat.ltb_spec (length l) 1); [lia|].
  destruct (Nat.ltb_spec 50 (length l)); [lia|].
  cbn [app]. rewrite E3. exact (f_equal inr Hvs).
Qed.

Lemma Forall2_nth_error {A B} (P : A -> B -> Prop) l k i x :
  Forall2 P l k -> nth_error l i = Some x -> exists y, nth_error k i = Some y /\ P x y.
Proof.
  intros H. revert i.
  induction H as [|a b l k Hab _ IH]; intros [|i] Hi; simpl in Hi; try discriminate.
  - injection Hi as <-. exists b. done.
  - apply IH, Hi.
Qed.

Lemma items_validate_Forall2 uri_ok l :
  (forall c, c ∈ l -> exists v, validate_clip uri_ok c = inr v) ->
  exists vs, Forall2 (fun c v => validate_clip uri_ok c = inr v) l vs.
Proof.
  induction l as [|c l IH]; intros H; [exists []; constructor|].
  destruct (H c) as [v Hv]; [apply list_elem_of_In; left; reflexivity|].
  destruct IH as [vs Hvs].
  { intros c' Hc'. apply H. apply list_elem_of_In. right. by apply list_elem_of_In. }
  exists (v :: vs). constructor; done.
Qed.

End ValidationFacts.

Module ValidationClaims.
Import Validation ValidationFacts.

Example clip_without_duration :
  validate_clip (fun _ => true)
    {| in_url := Some (JString "https://cdn.example.com/clip.mp4"); in_duration := None |} =
  inr {| url := "https://cdn.example.com/clip.mp4"; duration := 8 |}.
Proof. reflexivity. Qed.

Example clip_duration_too_long :
  validate_clip (fun _ => true)
    {| in_url := Some (JString "https://cdn.example.com/clip.mp4");
       in_duration := Some (JNumber 61) |} = inl [NumberMax].
Proof. reflexivity. Qed.

(** C10: in [validateProcessVideoRequest], a clip whose [duration] key is
    absent (and whose url passes the schema) passes [videoClipSchema] with
    duration 8, wherever it stands and whatever the other clips are: when
    the request is accepted, the clip at its index comes back with duration
    8, and the request is accepted when it has 1 to 50 clips that all pass
    the clip schema and no other key is in error (in particular, a request
    of such clips only is returned with duration 8 everywhere).  A clip whose
    explicit duration is below 1 or above 60 makes validation throw,
    whatever the rest of the request. *)
Theorem validateProcessVideoRequest_clip_duration (uri_ok : string -> bool) :
  (forall clips i c u,
     nth_error clips i = Some c ->
     in_url c = Some (JString u) -> uri_ok u = true -> clip_url_pattern u = true ->
     in_duration c = None ->
     validate_clip uri_ok c = inr {| url := u; duration := 8 |} /\
     (forall other_errors vs,
        validateProcessVideoRequest uri_ok clips other_errors = Some vs ->
        nth_error vs i = Some {| url := u; duration := 8 |}) /\
     ((1 <= length clips <= 50)%nat ->
      (forall c', c' ∈ clips -> exists v, validate_clip uri_ok c' = inr v) ->
      exists vs, validateProcessVideoRequest uri_ok clips [] = Some vs /\
                 nth_error vs i = Some {| url := u; duration := 8 |})) /\
  (forall urls,
     Forall (fun u => uri_ok u = true /\ clip_url_pattern u = true) urls ->
     (1 <= length urls <= 50)%nat ->
     validateProcessVideoRequest uri_ok
       (map (fun u => {| in_url := Some (JString u); in_duration := None |}) urls) [] =
     Some (map (fun u => {| url := u; duration := 8 |}) urls)) /\
  (forall clips other_errors c x,
     c ∈ clips -> in_duration c = Some (JNumber x) -> (x < 1 \/ 60 < x)%Q ->
     validateProcessVideoRequest uri_ok clips other_errors = None).
Proof.
  split; [|split].
  - intros clips i c u Hi Hurl Hu Hp Hd.
    pose proof (validate_clip_default_duration uri_ok c u Hurl Hu Hp Hd) as Hc.
    split; [exact Hc|]. split.
    + intros other_errors vs H. unfold validateProcessVideoRequest in H.
      destruct (validate_videoClips uri_ok clips) as [e|vs'] eqn:E;
        [discriminate H|].
      destruct other_errors; [|discriminate H]. injection H as <-.
      destruct (Forall2_nth_error _ _ _ i c (validate_videoClips_inr_items uri_ok clips vs' E) Hi)
        as (v & Hv & Hcv).
      rewrite Hc in Hcv. injection Hcv as <-. exact Hv.
    + intros Hlen Hall.
      destruct (items_validate_Forall2 uri_ok clips Hall) as [vs Hvs].
      exists vs. split.
      * unfold validateProcessVideoRequest.
        by rewrite (validate_videoClips_items_inr uri_ok clips vs Hlen Hvs).
      * destruct (Forall2_nth_error _ _ _ i c Hvs Hi) as (v & Hv & Hcv).
        rewrite Hc in Hcv. injection Hcv as <-. exact Hv.
  - intros urls Hok Hlen.
    unfold validateProcessVideoRequest, validate_videoClips.
    rewrite valid_clips_no_errors by exact Hok.
    rewrite concat_inr_nil, omap_inr, length_map.
    destruct (Nat.ltb_ge (length urls) 1) as [_ H1].
    destruct (Nat.ltb_ge 50 (length urls)) as [_ H2].
    rewrite H1, H2 by lia. reflexivity.
  - intros clips other_errors c x Hin Hd Hx.
    pose proof (concat_errors_nonempty uri_ok clips c Hin
                  (validate_clip_out_of_range uri_ok c x Hd Hx)) as Hne.
    unfold validateProcessVideoRequest, validate_videoClips.
    destruct (concat _) as [|e es] eqn:Hc; [contradiction|].
    destruct (if Nat.ltb (length clips) 1 then _ else _), (if Nat.ltb 50 _ then _ else _);
      reflexivity.
Qed.

(** A request mixing a clip with an explicit duration and a clip without
    one. *)
Definition mixed_clips : list ClipInput :=
  [ {| in_url := Some (JString "https://cdn.example.com/a.mp4");
       in_duration := Some (JNumber 20) |};
    {| in_url := Some (JString "https://cdn.example.com/b.mp4"); in_duration := None |} ].

Lemma validateProcessVideoRequest_clip_duration_witness :
  validateProcessVideoRequest (fun _ => true) mixed_clips [] =
    Some [ {| url := "https://cdn.example.com/a.mp4"; duration := 20 |};
           {| url := "https://cdn.example.com/b.mp4"; duration := 8 |} ] /\
  (exists vs, validateProcessVideoRequest (fun _ => true) mixed_clips [] = Some vs /\
              nth_error vs 1%nat = Some {| url := "https://cdn.example.com/b.mp4"; duration := 8 |}) /\
  validateProcessVideoRequest (fun _ => true)
    (map (fun u => {| in_url := Some (JString u); in_duration := None |})
       ["https://cdn.example.com/a.mp4"]) [] =
  Some [{| url := "https://cdn.example.com/a.mp4"; duration := 8 |}] /\
  validateProcessVideoRequest (fun _ => true)
    [{| in_url := Some (JString "https://cdn.example.com/a.mp4");
        in_duration := Some (JNumber (1#2)) |}] [] = None.
Proof.
  destruct (validateProcessVideoRequest_clip_duration (fun _ => true)) as (P1 & P2 & P3).
  split; [reflexivity|]. split; [|split].
  - destruct (P1 mixed_clips 1%nat
                {| in_url := Some (JString "https://cdn.example.com/b.mp4"); in_duration := None |}
                "https://cdn.example.com/b.mp4" eq_refl eq_refl eq_refl eq_refl eq_refl)
      as (_ & _ & P1c).
    apply P1c.
    + simpl; lia.
    + intros c' Hc'. apply list_elem_of_In in Hc'.
      destruct Hc' as [<-|[<-|[]]]; eexists; reflexivity.
  - apply (P2 ["https://cdn.example.com/a.mp4"]); [repeat constructor|simpl; lia].
  - apply (P3 _ _ {| in_url := Some (JString "https://cdn.example.com/a.mp4");
                     in_duration := Some (JNumber (1#2)) |} (1#2)).
    all: first [ apply list_elem_of_singleton; reflexivity
               | reflexivity
               | left; reflexivity ].
Defined.

End ValidationClaims.

(* ================================================================== *)
(** * Further properties of the code *)

Module ExtraFilter.
Import FFmpeg.

(** Extra (buildFilterComplex, no clips): with an empty list of local clips
    the graph is the subtitle chain alone, reading the label [video_out]
    that no chain produces. *)
Theorem buildFilterComplex_no_clips (fontsDir : string) (ctx : ProcessingContext)
    (Hnil : lf_videoClips (ctx_localFiles ctx) = []) :
  filtergraph_chains [] (buildFilterComplex fontsDir ctx) =
  [ {| fc_inputs := ["video_out"];
       fc_filter := KAss (assFile (ctx_localFiles ctx)) fontsDir;
       fc_outputs := ["vout"] |} ].
Proof.
  unfold buildFilterComplex. rewrite Hnil.
  destruct (ASPECT_RATIO_CONFIGS _) as [w h]. reflexivity.
Qed.

Lemma buildFilterComplex_no_clips_witness :
  lf_videoClips (ctx_localFiles (FFmpegClaims.sample_context [] [])) = [] /\
  filtergraph_chains [] (buildFilterComplex "/app/fonts" (FFmpegClaims.sample_context [] [])) =
  [ {| fc_inputs := ["video_out"]; fc_filter := KAss "/tmp/p/subtitles.ass" "/app/fonts";
       fc_outputs := ["vout"] |} ].
Proof.
  split; [reflexivity|].
  apply (buildFilterComplex_no_clips "/app/fonts" (FFmpegClaims.sample_context [] [])). reflexivity.
Defined.

End ExtraFilter.

Module ExtraMuxFacts.
Import Types Mux.
Local Open Scope nat_scope.

Lemma status_loop_first_id (ingest : nat -> UploadPoll) (k : nat) (id : string) :
  forall f r a,
  r <= k -> k < maxStatusRetries -> k < r + f -> truthy a = false ->
  (forall j b, r <= j < k -> ingest j = UploadGot b -> truthy b = false) ->
  ingest k = UploadGot (Some id) -> truthy (Some id) = true ->
  status_loop f ingest r a = (Some id, S k).
Proof.
  induction f as [|f IH]; intros r a Hrk Hk Hf Ha Hbefore Hik Hid; [lia|].
  cbn [status_loop].
  rewrite (proj2 (Nat.ltb_lt r maxStatusRetries)) by lia. rewrite Ha. simpl andb.
  destruct (Nat.eq_dec r k) as [->|Hne].
  - rewrite Hik. destruct f; cbn [status_loop]; [done|].
    rewrite Hid. simpl andb. rewrite andb_false_r. done.
  - destruct (ingest r) as [b|] eqn:Er.
    + apply IH; [lia|lia|lia|apply (Hbefore r b); [lia|done]
                |intros j b' Hj; apply Hbefore; lia|done|done].
    + apply IH; [lia|lia|lia|done|intros j b' Hj; apply Hbefore; lia|done|done].
Qed.

Lemma asset_loop_first_ready (remote : nat -> AssetPoll) (k : nat) (a : Asset) :
  forall f r asset,
  r <= k -> k < maxRetries -> k < r + f ->
  (forall j b, r <= j < k -> remote j = AssetGot b -> ready_with_playback b = false) ->
  remote k = AssetGot a -> ready_with_playback a = true ->
  asset_loop f remote r asset = (Broke, Some a, S k).
Proof.
  induction f as [|f IH]; intros r asset Hrk Hk Hf Hbefore Hrem Hready; [lia|].
  cbn [asset_loop].
  rewrite (proj2 (Nat.ltb_lt r maxRetries)) by lia.
  destruct (Nat.eq_dec r k) as [->|Hne].
  - rewrite Hrem, Hready. done.
  - assert (Hlast : Nat.eqb r (maxRetries - 1) = false)
      by (apply Nat.eqb_neq; unfold maxRetries in *; lia).
    destruct (remote r) as [b|] eqn:Er.
    + rewrite (Hbefore r b) by (done || lia).
      destruct (is_errored b); [rewrite Hlast|];
        (apply IH; [lia|lia|lia|intros j b' Hj; apply Hbefore; lia|done|done]).
    + rewrite Hlast. apply IH; [lia|lia|lia|intros j b' Hj; apply Hbefore; lia|done|done].
Qed.

End ExtraMuxFacts.

Module ExtraMux.
Import Types Mux ExtraMuxFacts.
Local Open Scope nat_scope.

(** Extra (MuxService.uploadVideo, asset poll): when [upload.asset_id] is
    set, no upload-status poll is made; if poll [k < 30] is the first to
    return an asset that is ready with a playback id (earlier polls may
    return other statuses or throw), polling stops after [k + 1] polls and
    the call returns [assetId] with the asset's first playback id, or fails
    when that id is empty. *)
Theorem uploadVideo_first_ready (id : string) (ingest : nat -> UploadPoll)
    (remote : nat -> AssetPoll) (k : nat) (a : Asset) (p : string) (ps : list string)
    (Hid : truthy (Some id) = true) (Hk : k < maxRetries)
    (Hbefore : forall j b, j < k -> remote j = AssetGot b -> ready_with_playback b = false)
    (Hrem : remote k = AssetGot a) (Hst : status a = ready) (Hpb : playback_ids a = p :: ps) :
  ingest_polls (uploadVideo_polls (Some id) ingest remote) = 0 /\
  asset_polls (uploadVideo_polls (Some id) ingest remote) = S k /\
  (p <> "" -> outcome (uploadVideo_polls (Some id) ingest remote) = MuxOk id p) /\
  (p = "" -> outcome (uploadVideo_polls (Some id) ingest remote) = mux_fail NoPlaybackId).
Proof.
  assert (Hready : ready_with_playback a = true)
    by (unfold ready_with_playback; rewrite Hst, Hpb; reflexivity).
  unfold uploadVideo_polls. rewrite Hid. simpl negb. cbv iota beta.
  rewrite (asset_loop_first_ready remote k a maxRetries 0 None) by
    (done || lia || (intros j b Hj; apply Hbefore; lia)).
  cbn -[truthy]. rewrite Hid, Hready, Hpb. cbn -[truthy].
  split; [done|]. split; [done|]. split.
  - intros Hp. rewrite bool_decide_false by done. done.
  - intros ->. done.
Qed.

Definition ready_at_2 (k : nat) : AssetPoll :=
  if Nat.ltb k 2 then (if Nat.eqb k 0 then AssetRetrieveFails
                       else AssetGot {| status := preparing; playback_ids := [] |})
  else AssetGot {| status := ready; playback_ids := ["pb7"] |}.

Lemma uploadVideo_first_ready_witness :
  (forall j b, j < 2 -> ready_at_2 j = AssetGot b -> ready_with_playback b = false) /\
  outcome (uploadVideo_polls (Some "asset-1") (fun _ => UploadRetrieveFails) ready_at_2) =
    MuxOk "asset-1" "pb7".
Proof.
  assert (H : forall j b, j < 2 -> ready_at_2 j = AssetGot b -> ready_with_playback b = false).
  { intros j b Hj Hb. destruct j as [|[|j]]; [discriminate Hb| |lia].
    injection Hb as <-. reflexivity. }
  split; [exact H|].
  apply (uploadVideo_first_ready "asset-1" (fun _ => UploadRetrieveFails) ready_at_2 2
           {| status := ready; playback_ids := ["pb7"] |} "pb7" [] eq_refl)
    ; try reflexivity.
  - unfold maxRetries. lia.
  - exact H.
  - discriminate.
Defined.

(** Extra (MuxService.uploadVideo, upload-status poll): when
    [upload.asset_id] is missing or empty and status poll [k < 10] is the
    first to return a non-empty [asset_id], the client stops after [k + 1]
    status polls and goes on exactly as if the upload had carried that
    asset id from the start. *)
Theorem uploadVideo_first_asset_id (u : option string) (ingest : nat -> UploadPoll)
    (remote : nat -> AssetPoll) (k : nat) (id : string)
    (Hu : truthy u = false) (Hk : k < maxStatusRetries)
    (Hbefore : forall j b, j < k -> ingest j = UploadGot b -> truthy b = false)
    (Hik : ingest k = UploadGot (Some id)) (Hid : truthy (Some id) = true) :
  ingest_polls (uploadVideo_polls u ingest remote) = S k /\
  outcome (uploadVideo_polls u ingest remote) =
  outcome (uploadVideo_polls (Some id) ingest remote).
Proof.
  unfold uploadVideo_polls. rewrite Hu, Hid. simpl negb. cbv iota beta.
  rewrite (status_loop_first_id ingest k id maxStatusRetries 0 u) by
    (done || lia || (intros j b Hj; apply Hbefore; lia)).
  cbv iota beta. rewrite Hid. simpl negb. cbv iota beta.
  destruct (asset_loop maxRetries remote 0 None) as [[ex asset] ap]. split; reflexivity.
Qed.

Definition id_at_1 (k : nat) : UploadPoll :=
  if Nat.eqb k 0 then UploadGot None else UploadGot (Some "asset-9").

Lemma uploadVideo_first_asset_id_witness :
  (forall j b, j < 1 -> id_at_1 j = UploadGot b -> truthy b = false) /\
  ingest_polls (uploadVideo_polls None id_at_1 MuxClaims.never_ready) = 2.
Proof.
  assert (H : forall j b, j < 1 -> id_at_1 j = UploadGot b -> truthy b = false).
  { intros j b Hj Hb. destruct j as [|j]; [|lia]. injection Hb as <-. reflexivity. }
  split; [exact H|].
  apply (uploadVideo_first_asset_id None id_at_1 MuxClaims.never_ready 1 "asset-9");
    try reflexivity.
  - unfold maxStatusRetries. lia.
  - exact H.
Defined.

End ExtraMux.

Module ExtraDownloadsFacts.
Import Types Downloads.

Lemma clips_loop_ok df dir : forall k i acc log,
  length log = i -> (forall j, (i <= j < i + k)%nat -> df j = false) ->
  clips_loop df dir i k acc log =
  (Some (acc ++ map (clip_path dir) (seq i k)), log ++ map (clip_path dir) (seq i k)).
Proof.
  induction k as [|k IH]; intros i acc log Hlen Hok; simpl.
  - by rewrite !app_nil_r.
  - unfold downloadFile. rewrite Hlen, (Hok i) by lia. simpl.
    rewrite IH by (rewrite ?length_app; simpl; lia || (intros; apply Hok; lia)).
    by rewrite <- !app_assoc.
Qed.

Lemma clips_loop_fail df dir : forall k i acc log j,
  length log = i -> (i <= j < i + k)%nat ->
  (forall m, (i <= m < j)%nat -> df m = false) -> df j = true ->
  clips_loop df dir i k acc log = (None, log ++ map (clip_path dir) (seq i (S (j - i)))).
Proof.
  induction k as [|k IH]; intros i acc log j Hlen Hj Hok Hf; [lia|].
  simpl. unfold downloadFile. rewrite Hlen.
  destruct (Nat.eq_dec i j) as [<-|Hne].
  - rewrite Hf. simpl. by replace (i - i)%nat with 0%nat by lia.
  - rewrite (Hok i) by lia. simpl.
    rewrite (IH (S i) _ _ j); [| rewrite length_app; simpl; lia | lia
                              | intros; apply Hok; lia | done].
    replace (j - i)%nat with (S (j - S i)) by lia.
    cbn [seq map]. rewrite <- app_assoc. reflexivity.
Qed.

Lemma clips_loop_some df dir : forall k i acc log v log',
  clips_loop df dir i k acc log = (Some v, log') -> v = acc ++ map (clip_path dir) (seq i k).
Proof.
  induction k as [|k IH]; intros i acc log v log' H; simpl in H.
  - injection H as <- _. by rewrite app_nil_r.
  - destruct (negb (df (length log))); [|discriminate H].
    apply IH in H. rewrite H. simpl. by rewrite <- app_assoc.
Qed.

Lemma clips_loop_none_or_some df dir : forall k i acc log,
  length log = i ->
  (exists log', clips_loop df dir i k acc log = (None, log')) \/
  (clips_loop df dir i k acc log =
     (Some (acc ++ map (clip_path dir) (seq i k)), log ++ map (clip_path dir) (seq i k)) /\
   forall j, (i <= j < i + k)%nat -> df j = false).
Proof.
  induction k as [|k IH]; intros i acc log Hlen; simpl.
  - right. rewrite !app_nil_r. split; [done|]. intros; lia.
  - unfold downloadFile. rewrite Hlen. destruct (df i) eqn:Ei; simpl.
    + left. eauto.
    + destruct (IH (S i) (acc ++ [clip_path dir i]) (log ++ [clip_path dir i]))
        as [H|[H1 H2]]; [rewrite length_app; simpl; lia|left; exact H|].
      right. rewrite H1, <- !app_assoc. split; [done|].
      intros j Hj. destruct (Nat.eq_dec j i) as [->|]; [done|]. apply H2; lia.
Qed.

Lemma string_app_cancel_l (a s1 s2 : string) : a +:+ s1 = a +:+ s2 -> s1 = s2.
Proof. induction a as [|c a IH]; simpl; [done|]. intros H. injection H. apply IH. Qed.

Lemma clip_file_name_inj i j : clip_file_name i = clip_file_name j -> i = j.
Proof.
  unfold clip_file_name. intros H.
  apply string_app_cancel_l in H. apply FFmpegFacts.string_app_cancel_r in H.
  apply (inj pretty) in H. lia.
Qed.

Lemma NoDup_map_inj {A B} (f : A -> B) (l : list A) :
  (forall x y, f x = f y -> x = y) -> NoDup l -> NoDup (map f l).
Proof.
  intros Hf Hl. induction Hl as [|x l Hx Hl IH]; simpl; constructor; [|done].
  intros Hin. apply list_elem_of_In, in_map_iff in Hin as (y & Hy & Hin).
  apply Hf in Hy as ->. apply Hx, list_elem_of_In, Hin.
Qed.

Lemma local_names_NoDup n :
  NoDup (map clip_file_name (seq 0 n) ++
         ["subtitles.ass"; "song.mp3"; "final_video.mp4"; "thumbnail.jpg"]).
Proof.
  apply NoDup_app. split; [|split].
  - apply NoDup_map_inj; [apply clip_file_name_inj|]. apply NoDup_ListNoDup, seq_NoDup.
  - intros x Hx. apply list_elem_of_In, in_map_iff in Hx as (i & <- & _).
    unfold clip_file_name. simpl. rewrite !elem_of_cons, elem_of_nil.
    intros [H|[H|[H|[H|H]]]]; done || discriminate H.
  - apply NoDup_ListNoDup. repeat constructor; simpl; intuition discriminate.
Qed.

End ExtraDownloadsFacts.

Module ExtraDownloads.
Import Types Downloads ExtraDownloadsFacts.

(** Extra (FileManager.downloadAssets, success): when [downloadAssets]
    returns, the clips are [tempDir/clip_1.mp4 .. clip_n.mp4], the subtitles
    [tempDir/subtitles.ass] and the song [tempDir/song.mp3]; these files and
    the [final_video.mp4] and [thumbnail.jpg] that [processVideo] adds to the
    context are pairwise distinct, so ffmpeg never writes over an input. *)
Theorem downloadAssets_local_files (download_fails : nat -> bool)
    (videoClipUrls : list string) (tempDir : string) clips ass song
    (Hok : dl_result (downloadAssets download_fails videoClipUrls tempDir) = inr (clips, ass, song)) :
  clips = map (clip_path tempDir) (seq 0 (length videoClipUrls)) /\
  ass = path_join tempDir "subtitles.ass" /\ song = path_join tempDir "song.mp3" /\
  NoDup (context_local_files tempDir clips ass song).
Proof.
  unfold downloadAssets in Hok.
  destruct (clips_loop _ _ _ _ _ _) as [[v|] log] eqn:Hc; [|discriminate Hok].
  apply clips_loop_some in Hc. simpl in Hc.
  unfold downloadFile in Hok.
  destruct (download_fails (length log)); simpl in Hok; [discriminate Hok|].
  destruct (download_fails (length (log ++ _))); simpl in Hok; [discriminate Hok|].
  injection Hok as <- <- <-. subst v.
  split; [done|]. split; [done|]. split; [done|].
  unfold context_local_files.
  replace (map (clip_path tempDir) (seq 0 (length videoClipUrls)) ++
           [path_join tempDir "subtitles.ass"; path_join tempDir "song.mp3";
            path_join tempDir "final_video.mp4"; path_join tempDir "thumbnail.jpg"])
    with (map (path_join tempDir)
            (map clip_file_name (seq 0 (length videoClipUrls)) ++
             ["subtitles.ass"; "song.mp3"; "final_video.mp4"; "thumbnail.jpg"]))
    by (rewrite map_app, map_map; reflexivity).
  apply NoDup_map_inj; [|apply local_names_NoDup].
  intros x y H. unfold path_join in H.
  apply string_app_cancel_l, (string_app_cancel_l "/") in H. exact H.
Qed.

Lemma downloadAssets_local_files_witness :
  dl_result (downloadAssets (fun _ => false) ["https://x/a.mp4"; "https://x/b.mp4"] "/tmp/p") =
    inr (["/tmp/p/clip_1.mp4"; "/tmp/p/clip_2.mp4"], "/tmp/p/subtitles.ass", "/tmp/p/song.mp3") /\
  NoDup (context_local_files "/tmp/p" ["/tmp/p/clip_1.mp4"; "/tmp/p/clip_2.mp4"]
           "/tmp/p/subtitles.ass" "/tmp/p/song.mp3").
Proof.
  split; [reflexivity|].
  apply (downloadAssets_local_files (fun _ => false) ["https://x/a.mp4"; "https://x/b.mp4"] "/tmp/p").
  reflexivity.
Defined.

(** Extra (FileManager.downloadAssets, order and failure): the downloads
    are made in the order clip 1 .. clip n, subtitles, song.  If call [k] is
    the first to fail, exactly the first [k + 1] downloads were started,
    the workspace is cleaned up and DOWNLOAD_FAILED (stage asset_download)
    is rethrown; if none fails, all [n + 2] are made and nothing is cleaned
    up. *)
Theorem downloadAssets_order (download_fails : nat -> bool)
    (videoClipUrls : list string) (tempDir : string) :
  let n := length videoClipUrls in
  let run := downloadAssets download_fails videoClipUrls tempDir in
  (forall k, (k < n + 2)%nat -> (forall m, (m < k)%nat -> download_fails m = false) ->
     download_fails k = true ->
     attempted run = take (S k) (planned_downloads tempDir n) /\
     cleaned_up run = true /\ dl_result run = inl download_error) /\
  ((forall m, (m < n + 2)%nat -> download_fails m = false) ->
     attempted run = planned_downloads tempDir n /\ cleaned_up run = false).
Proof.
  intros n run. subst n run. unfold downloadAssets, planned_downloads.
  set (n := length videoClipUrls).
  split.
  - intros k Hk Hbefore Hk_fails.
    destruct (Nat.lt_ge_cases k n) as [Hkn|Hkn].
    + rewrite (clips_loop_fail download_fails tempDir n 0 [] [] k); [|done|lia|intros; apply Hbefore; lia|done].
      simpl. split; [|done].
      rewrite take_app_le by (rewrite length_map, length_seq; lia).
      rewrite firstn_map, take_seq. rewrite Nat.min_l, Nat.sub_0_r by lia. reflexivity.
    + rewrite clips_loop_ok by (done || (intros; apply Hbefore; lia)). simpl.
      unfold downloadFile. rewrite length_map, length_seq.
      assert (Hlen : length (map (clip_path tempDir) (seq 0 n)) = n)
        by (rewrite length_map, length_seq; done).
      destruct (Nat.eq_dec k n) as [->|Hne].
      * rewrite Hk_fails. simpl. split; [|done].
        replace (S n) with (length (map (clip_path tempDir) (seq 0 n)) + 1)%nat by lia.
        rewrite firstn_app_2. reflexivity.
      * rewrite (Hbefore n) by lia. simpl. rewrite length_app, Hlen. simpl.
        replace (n + 1)%nat with k by lia. rewrite Hk_fails. simpl. split; [|done].
        rewrite <- app_assoc. simpl.
        replace (S k) with (length (map (clip_path tempDir) (seq 0 n)) + 2)%nat by lia.
        rewrite firstn_app_2. done.
  - intros Hnone.
    rewrite clips_loop_ok by (done || (intros; apply Hnone; lia)). simpl.
    unfold downloadFile. rewrite length_map, length_seq.
    rewrite (Hnone n) by lia. simpl. rewrite length_app, length_map, length_seq. simpl.
    rewrite (Hnone (n + 1)%nat) by lia. simpl. split; [|done].
    by rewrite <- app_assoc.
Qed.

Lemma downloadAssets_order_witness :
  (1 < length ["https://x/a.mp4"; "https://x/b.mp4"] + 2)%nat /\
  attempted (downloadAssets (fun k => Nat.eqb k 1) ["https://x/a.mp4"; "https://x/b.mp4"] "/tmp/p") =
    take 2 (planned_downloads "/tmp/p" 2).
Proof.
  split; [simpl; lia|].
  apply (proj1 (downloadAssets_order (fun k => Nat.eqb k 1) ["https://x/a.mp4"; "https://x/b.mp4"]
                  "/tmp/p") 1%nat).
  - simpl; lia.
  - intros m Hm. destruct m; [reflexivity|lia].
  - reflexivity.
Defined.

End ExtraDownloads.

Module ExtraPipelineFacts.
Import Types Pipeline PipelineErrors.

Ltac unfold_run :=
  unfold processVideo, try_catch, validateRequest, verifyFFmpegInstallation,
    createProcessingContext, downloadAssets, extractMetadata, ffmpeg_processVideo,
    generateThumbnail, cleanup, on_error, cleanupDirectory_ignoring, cleanupDirectory,
    mbind, mret, PM_bind, PM_ret, modify, get, throw.

(** Every error the upload fork can reject with is UPLOAD_FAILED of the
    upload stage, whichever upload wins the race. *)
Lemma upload_fork_outcome (env : Env) (s : State) :
  upload_fork env s =
  if existsb (fails env) upload_steps
  then (inl (perr UPLOAD_FAILED OUTPUT_UPLOAD), s) else (inr tt, s).
Proof.
  unfold upload_fork, upload_steps. cbn [existsb].
  destruct (fails env SUploadBlob), (fails env SUploadThumbnail), (fails env SUploadMux);
    cbn; try reflexivity;
    destruct (fork_winner env) as [|[|[|[|n]]]]; reflexivity.
Qed.

(** The result of [processVideo] from the first failing call. *)
Lemma processVideo_outcome (env : Env) :
  fst (processVideo env initial_state) =
  if fails env SValidate then inl (step_error SValidate) else
  if fails env SVerifyFFmpeg then inl (step_error SVerifyFFmpeg) else
  if fails env SCreateWorkspace then inl (step_error SCreateWorkspace) else
  if fails env SDownload then inl (step_error SDownload) else
  if fails env SMetadata then inl (step_error SMetadata) else
  if fails env STranscode then inl (step_error STranscode) else
  if fails env SThumbnail then inl (step_error SThumbnail) else
  if existsb (fails env) upload_steps then inl (perr UPLOAD_FAILED OUTPUT_UPLOAD)
  else inr tt.
Proof.
  unfold_run.
  destruct (fails env SValidate); [reflexivity|].
  destruct (fails env SVerifyFFmpeg); [reflexivity|].
  destruct (fails env SCreateWorkspace); [reflexivity|].
  destruct (fails env SDownload); [destruct (rm_succeeds env); reflexivity|].
  destruct (fails env SMetadata); [destruct (rm_succeeds env); reflexivity|].
  destruct (fails env STranscode); [destruct (rm_succeeds env); reflexivity|].
  destruct (fails env SThumbnail); [destruct (rm_succeeds env); reflexivity|].
  cbn -[upload_fork upload_steps]. rewrite upload_fork_outcome.
  destruct (existsb (fails env) upload_steps); cbn; [reflexivity|].
  destruct (rm_succeeds env); reflexivity.
Qed.

Lemma Forall_fails_false (env : Env) (l : list Step) :
  Forall (fun s => fails env s = false) l <-> existsb (fails env) l = false.
Proof.
  induction l as [|x l IH]; simpl; [split; constructor|].
  rewrite Forall_cons, IH, orb_false_iff. done.
Qed.

End ExtraPipelineFacts.

Module ExtraPipeline.
Import Types Pipeline PipelineErrors ExtraPipelineFacts.

(** Extra (VideoProcessor.processVideo, error propagation): if the call at
    position [i] of [validateRequest], [verifyFFmpegInstallation],
    [createProcessingContext], [downloadAssets], [extractMetadata],
    [FFmpegService.processVideo], [generateThumbnail] fails and every
    earlier one succeeded, [processVideo] rejects with exactly the error
    that call threw: the [catch] block and the cleanups it runs never
    replace it. *)
Theorem processVideo_first_failure (env : Env) (i : nat)
    (Hi : (i < length steps_before_fork)%nat)
    (Hok : Forall (fun s => fails env s = false) (take i steps_before_fork))
    (Hf : fails env (nth i steps_before_fork SValidate) = true) :
  exists st, processVideo env initial_state = (inl (step_error (nth i steps_before_fork SValidate)), st).
Proof.
  exists (snd (processVideo env initial_state)).
  rewrite (surjective_pairing (processVideo env initial_state)). f_equal.
  rewrite processVideo_outcome.
  unfold steps_before_fork in *.
  destruct i as [|[|[|[|[|[|[|i]]]]]]]; cbn in Hi, Hok, Hf; [..|lia];
    repeat match goal with H : Forall _ (_ :: _) |- _ => apply Forall_cons in H as [? H] end;
    repeat match goal with H : fails env _ = _ |- _ => rewrite H; clear H end;
    reflexivity.
Qed.

Definition env_metadata_fails : Env :=
  {| fails := fun st => match st with SMetadata => true | _ => false end;
     fork_winner := 0; rm_succeeds := false |}.

Lemma processVideo_first_failure_witness :
  exists st, processVideo env_metadata_fails initial_state =
             (inl (perr METADATA_EXTRACTION_ERROR METADATA_EXTRACTION), st).
Proof.
  apply (processVideo_first_failure env_metadata_fails 4%nat).
  - simpl; lia.
  - repeat constructor.
  - reflexivity.
Defined.

(** Extra (VideoProcessor.processVideo and cleanup, success): if no call
    fails, [processVideo] resolves and [context] is set.  The final
    [cleanup] removes the workspace with the rendered video when [fs.rm]
    succeeds; when it fails the run still resolves, leaving the workspace
    and the video on disk. *)
Theorem processVideo_success (env : Env)
    (Hok : Forall (fun s => fails env s = false) all_steps) :
  processVideo env initial_state =
  (inr tt, {| context_set := true; ws_exists := negb (rm_succeeds env);
              output_exists := negb (rm_succeeds env) |}).
Proof.
  unfold all_steps, steps_before_fork in Hok.
  rewrite Forall_app in Hok. destruct Hok as [Hpre Hup].
  apply Forall_fails_false in Hup.
  cbn in Hpre.
  repeat match goal with H : Forall _ (_ :: _) |- _ => apply Forall_cons in H as [? H] end.
  unfold_run.
  repeat match goal with H : fails env _ = false |- _ => rewrite H; clear H end.
  cbn -[upload_fork]. rewrite upload_fork_outcome, Hup.
  destruct (rm_succeeds env); reflexivity.
Qed.

Definition env_rm_fails : Env :=
  {| fails := fun _ => false; fork_winner := 0; rm_succeeds := false |}.

Lemma processVideo_success_witness :
  processVideo env_rm_fails initial_state =
  (inr tt, {| context_set := true; ws_exists := true; output_exists := true |}).
Proof.
  apply (processVideo_success env_rm_fails). repeat constructor.
Defined.

End ExtraPipeline.

Module ExtraServerFacts.
Import Types Server.

Lemma status_of_code (c : ProcessingErrorCode) :
  getHttpStatusCode (code_string c) =
  match c with VALIDATION_ERROR => 400%nat | CLEANUP_ERROR => 200%nat | _ => 500%nat end.
Proof. destruct c; vm_compute; reflexivity. Qed.

End ExtraServerFacts.

Module ExtraServer.
Import Types Pipeline PipelineErrors Server ExtraPipelineFacts ExtraServerFacts.

Ltac status_case :=
  cbn -[code_string getHttpStatusCode]; rewrite ?status_of_code; cbn; intuition congruence.

(** Extra ([POST /process-video] and getHttpStatusCode): missing Blob or
    Mux credentials make the route answer 400.  Otherwise (when the
    thumbnail upload does not fail) it answers 200 exactly when no step of
    the run fails, 400 exactly when the failing call is [validateRequest],
    or [createProcessingContext] after a successful validation and ffmpeg
    check, and 500 in every other case. *)
Theorem process_video_route_status (BLOB_READ_WRITE_TOKEN MUX_TOKEN_ID MUX_TOKEN_SECRET : option string)
    (env : Env) (Hthumb : fails env SUploadThumbnail = false) :
  let status := process_video_route BLOB_READ_WRITE_TOKEN MUX_TOKEN_ID MUX_TOKEN_SECRET env in
  (VideoProcessor_new BLOB_READ_WRITE_TOKEN MUX_TOKEN_ID MUX_TOKEN_SECRET <> None ->
   status = 400%nat) /\
  (VideoProcessor_new BLOB_READ_WRITE_TOKEN MUX_TOKEN_ID MUX_TOKEN_SECRET = None ->
   (status = 200%nat <-> Forall (fun s => fails env s = false) all_steps) /\
   (status = 400%nat <-> fails env SValidate = true \/
                         (fails env SValidate = false /\ fails env SVerifyFFmpeg = false /\
                          fails env SCreateWorkspace = true)) /\
   (status <> 200%nat -> status <> 400%nat -> status = 500%nat)).
Proof.
  intros status. subst status. unfold process_video_route. split.
  - intros Hnew. destruct (VideoProcessor_new _ _ _) as [e|] eqn:He; [|done].
    unfold VideoProcessor_new in He.
    destruct (bool_decide _); [injection He as <-; reflexivity|].
    destruct (negb _ || negb _); [injection He as <-; reflexivity|discriminate He].
  - intros Hnew. rewrite Hnew, processVideo_outcome, Forall_fails_false.
    unfold all_steps, steps_before_fork, upload_steps. cbn [app existsb].
    rewrite Hthumb.
    destruct (fails env SValidate); [status_case|].
    destruct (fails env SVerifyFFmpeg); [status_case|].
    destruct (fails env SCreateWorkspace); [status_case|].
    destruct (fails env SDownload); [status_case|].
    destruct (fails env SMetadata); [status_case|].
    destruct (fails env STranscode); [status_case|].
    destruct (fails env SThumbnail); [status_case|].
    destruct (fails env SUploadBlob); [status_case|].
    destruct (fails env SUploadMux); status_case.
Qed.

Definition env_workspace_fails : Env :=
  {| fails := fun st => match st with SCreateWorkspace => true | _ => false end;
     fork_winner := 0; rm_succeeds := true |}.

Lemma process_video_route_status_witness :
  fails env_workspace_fails SUploadThumbnail = false /\
  VideoProcessor_new (Some "blob_token") (Some "mux_id") (Some "mux_secret") = None /\
  process_video_route (Some "blob_token") (Some "mux_id") (Some "mux_secret") env_workspace_fails = 400%nat.
Proof.
  split; [reflexivity|]. split; [reflexivity|].
  apply (proj2 (proj1 (proj2 (proj2 (process_video_route_status
     (Some "blob_token") (Some "mux_id") (Some "mux_secret") env_workspace_fails eq_refl)
     eq_refl)))).
  right. split; [reflexivity|]. split; reflexivity.
Defined.

(** Extra (authenticateApiKey): a request passes exactly when
    [X_API_KEY] is set to a non-empty string and the [x-api-key] header
    equals it; while [X_API_KEY] is unset or empty every request is
    answered 500 CONFIGURATION_ERROR, and every other rejection is 401
    UNAUTHORIZED. *)
Theorem authenticateApiKey_spec (validApiKey providedApiKey : option string) :
  (authenticateApiKey validApiKey providedApiKey = AuthNext <->
   Mux.truthy validApiKey = true /\ providedApiKey = validApiKey) /\
  (Mux.truthy validApiKey = false ->
   authenticateApiKey validApiKey providedApiKey = AuthReject 500 "CONFIGURATION_ERROR") /\
  (Mux.truthy validApiKey = true -> providedApiKey <> validApiKey ->
   authenticateApiKey validApiKey providedApiKey = AuthReject 401 "UNAUTHORIZED").
Proof.
  unfold authenticateApiKey.
  destruct (Mux.truthy validApiKey) eqn:Hv; cbn [negb].
  - destruct (Mux.truthy providedApiKey) eqn:Hp; cbn [negb].
    + destruct (bool_decide_reflect (providedApiKey <> validApiKey)) as [Hne|Heq].
      * split; [split; [discriminate|intros [_ ->]; done]|]. split; [discriminate|auto].
      * apply dec_stable in Heq. split; [split; [auto|intros; reflexivity]|].
        split; [discriminate|intros _ []; exact Heq].
    + split; [split; [discriminate|intros [_ ->]; congruence]|].
      split; [discriminate|reflexivity].
  - split; [split; [discriminate|intros [[=] _]]|]. split; [reflexivity|discriminate].
Qed.

End ExtraServer.

Module ExtraSchemaFacts.
Import FileNames SongIdSchema Validation.

Lemma songId_valid_no_slash (s : string) :
  songId_valid s = true -> ~ In (Ascii.ascii_of_nat 47) (String.list_ascii_of_string s).
Proof.
  unfold songId_valid. intros H. apply andb_prop in H as [H _].
  apply andb_prop in H as [H _]. apply andb_prop in H as [H _].
  rewrite forallb_forall in H. intros Hin. apply H in Hin. vm_compute in Hin. discriminate Hin.
Qed.

Lemma split_at_slash (s1 s2 r1 r2 : string) :
  ~ In (Ascii.ascii_of_nat 47) (String.list_ascii_of_string s1) -> ~ In (Ascii.ascii_of_nat 47) (String.list_ascii_of_string s2) ->
  s1 +:+ "/" +:+ r1 = s2 +:+ "/" +:+ r2 -> s1 = s2 /\ r1 = r2.
Proof.
  revert s2. induction s1 as [|c1 s1 IH]; intros [|c2 s2] H1 H2 H; simpl in *.
  - injection H as H. done.
  - injection H as <- _. exfalso. apply H2. left. reflexivity.
  - injection H as -> _. exfalso. apply H1. left. reflexivity.
  - injection H as <- H.
    destruct (IH s2) as [-> ->]; [tauto|tauto|exact H|done].
Qed.

Lemma string_app_cancel_front (a s1 s2 : string) : a +:+ s1 = a +:+ s2 -> s1 = s2.
Proof. induction a as [|c a IH]; simpl; [done|]. intros H. injection H. apply IH. Qed.

End ExtraSchemaFacts.

Module ExtraSchema.
Import FileNames SongIdSchema Validation ValidationFacts ExtraSchemaFacts.

(** Extra (songId schema, generateFileName and generateBlobPath): for
    songIds the request schema accepts, the blob path
    [videos/<songId>/final_video_<processId>.<ext>] of [uploadOutput]
    determines the songId and the processId, so uploads of two different
    songs or two different runs never share a path. *)
Theorem blob_path_injective (songId1 songId2 processId1 processId2 extension : string)
    (H1 : songId_valid songId1 = true) (H2 : songId_valid songId2 = true)
    (Heq : generateBlobPath songId1 (generateFileName songId1 processId1 extension) =
           generateBlobPath songId2 (generateFileName songId2 processId2 extension)) :
  songId1 = songId2 /\ processId1 = processId2.
Proof.
  unfold generateBlobPath, generateFileName in Heq.
  apply (string_app_cancel_front "videos/") in Heq.
  apply split_at_slash in Heq as [-> Hr];
    [|apply songId_valid_no_slash; done|apply songId_valid_no_slash; done].
  split; [done|].
  apply (string_app_cancel_front "final_video_") in Hr.
  exact (FFmpegFacts.string_app_cancel_r _ _ _ Hr).
Qed.

Lemma blob_path_injective_witness :
  songId_valid "song-123" = true /\ songId_valid "song-123" = true /\
  ("song-123" = "song-123" /\ "p1" = "p1").
Proof.
  split; [reflexivity|]. split; [reflexivity|].
  apply (blob_path_injective "song-123" "song-123" "p1" "p1" "mp4"); reflexivity.
Defined.

(** Extra (videoClips schema): the [videoClips] array is accepted exactly
    when it holds 1 to 50 items and every item passes [videoClipSchema];
    the validated array then holds the validated items, in order. *)
Theorem validate_videoClips_accepts (uri_ok : string -> bool) (l : list ClipInput)
    (vs : list VideoClip) :
  validate_videoClips uri_ok l = inr vs <->
  (1 <= length l <= 50)%nat /\ Forall2 (fun c v => validate_clip uri_ok c = inr v) l vs.
Proof.
  unfold validate_videoClips. cbv zeta. split.
  - destruct (_ ++ _ ++ _) as [|e errs] eqn:E; [|discriminate].
    intros H. injection H as <-.
    apply app_eq_nil in E as [E1 E]. apply app_eq_nil in E as [E2 E3].
    destruct (Nat.ltb_spec (length l) 1) as [|Hmin]; [discriminate E1|].
    destruct (Nat.ltb_spec 50 (length l)) as [|Hmax]; [discriminate E2|].
    split; [lia|]. apply items_all_ok, E3.
  - intros [Hlen Hall].
    destruct (items_all_ok_inv uri_ok l vs Hall) as [E3 Hvs].
    destruct (Nat.ltb_spec (length l) 1); [lia|].
    destruct (Nat.ltb_spec 50 (length l)); [lia|].
    cbn [app]. rewrite E3. exact (f_equal inr Hvs).
Qed.

End ExtraSchema.
